(** * Patient data normalisation and risk classification

    A shallow embedding of [src/data-processor.ts], [src/risk-calculator.ts]
    and [HealthcareAssessmentApp.generateAlerts] (main.ts), with the
    properties of the natural-language specification checked against it.

    Modelling conventions.
    - A JavaScript number is [NaN], an infinity, or a finite value carried
      as an exact rational ([Q]).  Comparisons follow IEEE semantics on
      [NaN] (always false).  Rounding of decimal literals to binary64 is
      not modelled: a decimal literal denotes itself.  What is proved of
      a string field is stated on the number that [parseFloat] returns
      for it.
    - A JavaScript string is a list of UTF-16 code units ([list N]); [str]
      injects an ASCII literal.
    - A raw, untyped value (TypeScript [any]) is the inductive [any]. *)

From Stdlib Require Import List Bool Arith ZArith NArith QArith Qround Lia Lqa.
From Stdlib Require Import Ascii String.
Import ListNotations.

Set Implicit Arguments.

(** ** JavaScript numbers *)

Inductive number : Type :=
| NaN
| PosInf
| NegInf
| Fin (q : Q).

Module Num.

Definition Qlt_bool (a b : Q) : bool := negb (Qle_bool b a).

(** [a < b] *)
Definition lt (a b : number) : bool :=
  match a, b with
  | NaN, _ | _, NaN => false
  | PosInf, _ => false
  | _, NegInf => false
  | NegInf, _ => true
  | _, PosInf => true
  | Fin x, Fin y => Qlt_bool x y
  end.

(** [a <= b] *)
Definition le (a b : number) : bool :=
  match a, b with
  | NaN, _ | _, NaN => false
  | NegInf, _ => true
  | _, PosInf => true
  | PosInf, _ => false
  | _, NegInf => false
  | Fin x, Fin y => Qle_bool x y
  end.

(** [a > b] and [a >= b] *)
Definition gt (a b : number) : bool := lt b a.
Definition ge (a b : number) : bool := le b a.

Definition isNaN (a : number) : bool :=
  match a with NaN => true | _ => false end.

(** Unary minus. *)
Definition neg (a : number) : number :=
  match a with
  | NaN => NaN
  | PosInf => NegInf
  | NegInf => PosInf
  | Fin x => Fin (- x)
  end.

(** [Math.round]: the integer nearest to the argument, ties towards
    +infinity. *)
Definition round (a : number) : number :=
  match a with
  | Fin x => Fin (inject_Z (Qfloor (x + (1 # 2))))
  | other => other
  end.

End Num.

Declare Scope num_scope.
Delimit Scope num_scope with num.
Notation "a <? b" := (Num.lt a b) : num_scope.
Notation "a <=? b" := (Num.le a b) : num_scope.
Notation "a >? b" := (Num.gt a b) : num_scope.
Notation "a >=? b" := (Num.ge a b) : num_scope.

(** ** JavaScript strings *)

Definition jsstring : Type := list N.

(** An ASCII literal as a JavaScript string. *)
Definition str (s : string) : jsstring :=
  List.map N_of_ascii (list_ascii_of_string s).

Section Span.
Variable A : Type.
Variable p : A -> bool.

Fixpoint dropWhile (l : list A) : list A :=
  match l with
  | [] => []
  | x :: t => if p x then dropWhile t else l
  end.

Fixpoint takeWhile (l : list A) : list A :=
  match l with
  | [] => []
  | x :: t => if p x then x :: takeWhile t else []
  end.

End Span.

Definition is_empty (A : Type) (l : list A) : bool :=
  match l with [] => true | _ :: _ => false end.

(** WhiteSpace and LineTerminator code units (ECMAScript 12.2, 12.3),
    the characters removed by [String.prototype.trim] and skipped by
    [parseFloat]. *)
Definition is_whitespace (c : N) : bool :=
  ((c =? 9) || (c =? 10) || (c =? 11) || (c =? 12) || (c =? 13) || (c =? 32)
   || (c =? 160) || (c =? 5760) || ((8192 <=? c) && (c <=? 8202))
   || (c =? 8232) || (c =? 8233) || (c =? 8239) || (c =? 8287)
   || (c =? 12288) || (c =? 65279))%N.

Definition trimStart (s : jsstring) : jsstring := dropWhile is_whitespace s.

Definition trimEnd (s : jsstring) : jsstring :=
  rev (dropWhile is_whitespace (rev s)).

(** [s.trim()] *)
Definition trim (s : jsstring) : jsstring := trimEnd (trimStart s).

(** [s.toLowerCase()] on the ASCII letters; the other code units are
    left as they are (the Unicode case table is not modelled). *)
Definition lower (c : N) : N :=
  if ((65 <=? c) && (c <=? 90))%N then (c + 32)%N else c.

Definition toLowerCase (s : jsstring) : jsstring := List.map lower s.

Fixpoint startsWith (s pat : jsstring) {struct pat} : bool :=
  match pat, s with
  | [], _ => true
  | _ :: _, [] => false
  | p :: pat', c :: s' => (c =? p)%N && startsWith s' pat'
  end.

(** [s.includes(pat)] *)
Fixpoint includes (s pat : jsstring) : bool :=
  startsWith s pat ||
  match s with
  | [] => false
  | _ :: s' => includes s' pat
  end.

(** [s.split(sep)] for a separator of one code unit. *)
Fixpoint split (sep : N) (s : jsstring) : list jsstring :=
  match s with
  | [] => [[]]
  | c :: t =>
      if (c =? sep)%N then [] :: split sep t
      else match split sep t with
           | h :: r => (c :: h) :: r
           | [] => [[c]]
           end
  end.

Definition slash : N := 47%N.
Definition dot : N := 46%N.

(** *** [parseFloat] (ECMAScript 19.2.4, StrDecimalLiteral) *)

Definition is_digit (c : N) : bool := ((48 <=? c) && (c <=? 57))%N.

Definition digit_value (c : N) : Z := Z.of_N c - 48.

(** The mathematical value of a run of decimal digits. *)
Definition digits_value (ds : jsstring) : Z :=
  fold_left (fun acc c => 10 * acc + digit_value c)%Z ds 0%Z.

Definition pow10 (e : Z) : Q := Qpower 10 e.

(** The value of [ds . fs]: the value of [ds] plus the value of [fs]
    times [10^-n], [n] the number of digits of [fs]. *)
Definition decimal_value (ds fs : jsstring) : Q :=
  inject_Z (digits_value ds)
  + inject_Z (digits_value fs) * pow10 (- Z.of_nat (List.length fs)).

(** SignedInteger of an ExponentPart; [None] when there is no digit. *)
Definition signed_integer (s : jsstring) : option Z :=
  let digits (t : jsstring) (sign : Z) :=
    match takeWhile is_digit t with
    | [] => None
    | ds => Some (sign * digits_value ds)%Z
    end in
  match s with
  | c :: t =>
      if (c =? 43)%N then digits t 1%Z
      else if (c =? 45)%N then digits t (-1)%Z
      else digits s 1%Z
  | [] => None
  end.

(** The exponent of the longest ExponentPart that starts [s]; 0 when
    there is none. *)
Definition exponent_part (s : jsstring) : Z :=
  match s with
  | c :: t =>
      if ((c =? 101) || (c =? 69))%N then
        match signed_integer t with
        | Some e => e
        | None => 0%Z
        end
      else 0%Z
  | [] => 0%Z
  end.

(** The longest prefix of [s] that is a StrUnsignedDecimalLiteral. *)
Definition unsigned_decimal_literal (s : jsstring) : number :=
  if startsWith s (str "Infinity") then PosInf
  else
    let ds := takeWhile is_digit s in
    let rest := dropWhile is_digit s in
    match rest with
    | c :: rest' =>
        if (c =? dot)%N then
          let fs := takeWhile is_digit rest' in
          let rest'' := dropWhile is_digit rest' in
          if is_empty ds && is_empty fs then NaN
          else Fin (decimal_value ds fs * pow10 (exponent_part rest''))
        else
          if is_empty ds then NaN
          else Fin (inject_Z (digits_value ds) * pow10 (exponent_part rest))
    | [] =>
        if is_empty ds then NaN else Fin (inject_Z (digits_value ds))
    end.

(** [parseFloat(s)]: the longest prefix of the string without its leading
    white space that is a StrDecimalLiteral, or [NaN].  The number is the
    mathematical value of that literal; JavaScript goes on to round it to
    binary64, a step that is not modelled.  The properties of the
    normalisers below are stated on the number that [parseFloat] returns
    and their proofs use nothing of how its digits are valued, but for
    runs of digits read as whole numbers. *)
Definition parseFloat (s : jsstring) : number :=
  match trimStart s with
  | c :: t =>
      if (c =? 43)%N then unsigned_decimal_literal t
      else if (c =? 45)%N then Num.neg (unsigned_decimal_literal t)
      else unsigned_decimal_literal (c :: t)
  | [] => NaN
  end.

(** ** Untyped values *)

#[warnings="-register-all"]
Inductive any : Type :=
| JUndefined
| JNull
| JBool (b : bool)
| JNum (n : number)
| JStr (s : jsstring)
| JObj (props : list (string * any)).

Fixpoint lookup (k : string) (props : list (string * any)) : any :=
  match props with
  | [] => JUndefined
  | (k', v) :: rest => if String.eqb k k' then v else lookup k rest
  end.

(** [v?.k]: [undefined] on [null], [undefined], and on a primitive, which
    has no such property. *)
Definition get (v : any) (k : string) : any :=
  match v with
  | JObj props => lookup k props
  | _ => JUndefined
  end.

(** ToBoolean *)
Definition truthy (v : any) : bool :=
  match v with
  | JUndefined | JNull => false
  | JBool b => b
  | JNum NaN => false
  | JNum (Fin q) => negb (Qeq_bool q 0)
  | JNum _ => true
  | JStr s => negb (is_empty s)
  | JObj _ => true
  end.

(** ** types.ts *)

(** The shape of [age_data] and [temperature_data]; an absent optional
    field is [None]. *)
Record FieldData : Type := mkField {
  valid : bool;
  value : option number;
  original : any
}.

Record BloodPressureData : Type := mkBP {
  bp_valid : bool;
  systolic : option number;
  diastolic : option number;
  bp_original : any
}.

Record ProcessedPatient : Type := mkPatient {
  id : any;
  age_data : FieldData;
  blood_pressure_data : BloodPressureData;
  temperature_data : FieldData
}.

Record SubmissionData : Type := mkSubmission {
  high_risk_patients : list any;
  fever_patients : list any;
  data_quality_issues : list any
}.

Inductive BloodPressureStage : Type :=
| NORMAL | ELEVATED | STAGE_1 | STAGE_2 | INVALID.

Inductive TemperatureCategory : Type :=
| T_NORMAL | LOW_FEVER | HIGH_FEVER | T_INVALID.

Inductive AgeCategory : Type :=
| UNDER_40 | MIDDLE_AGE | OVER_65 | A_INVALID.

Record RiskScores : Type := mkScores {
  rs_blood_pressure : nat;
  rs_temperature : nat;
  rs_age : nat;
  rs_total : nat
}.

Record ProcessingStats : Type := mkStats {
  total : nat;
  validAge : nat;
  validBP : nat;
  validTemp : nat;
  fullyValid : nat;
  dataQualityIssues : nat
}.

(** ** data-processor.ts *)

Module DataProcessor.

Local Open Scope num_scope.

(** [/^\d+(\.\d+)?$/.test(s)] *)
Definition age_pattern (s : jsstring) : bool :=
  let ds := takeWhile is_digit s in
  negb (is_empty ds) &&
  match dropWhile is_digit s with
  | [] => true
  | c :: rest =>
      (c =? dot)%N &&
      negb (is_empty rest) && is_empty (dropWhile is_digit rest)
  end.

Definition processAge (age : any) : FieldData :=
  let result := mkField false None age in
  match age with
  | JNull | JUndefined | JStr [] => result
  | JNum n =>
      if negb (Num.isNaN n) && (n >? Fin 0) && (n <? Fin 150)
      then mkField true (Some n) age
      else result
  | JStr s =>
      let trimmedAge := trim s in
      if negb (age_pattern trimmedAge) then result
      else
        let numericAge := parseFloat trimmedAge in
        if negb (Num.isNaN numericAge) && (numericAge >? Fin 0)
           && (numericAge <? Fin 150)
        then mkField true (Some (Num.round numericAge)) age
        else result
  | _ => result
  end.

(** Returns [number | null]; [null] is [None]. *)
Definition parseNumericValue (v : any) : option number :=
  match v with
  | JNum n => if Num.isNaN n then None else Some n
  | JStr s =>
      let trimmed := trim s in
      if is_empty trimmed then None
      else
        let parsed := parseFloat trimmed in
        if Num.isNaN parsed then None else Some parsed
  | _ => None
  end.

Definition isValidBloodPressureValue (v : number) (isSystolic : bool) : bool :=
  if isSystolic then (v >=? Fin 70) && (v <=? Fin 300)
  else (v >=? Fin 40) && (v <=? Fin 200).

Definition isValidTemperature (v : number) : bool :=
  (v >=? Fin 90) && (v <=? Fin 110).

(** The test shared by the string and the object branch of
    [processBloodPressure]. *)
Definition checked_pair (systolic diastolic : option number) (bp : any)
  : option BloodPressureData :=
  match systolic, diastolic with
  | Some s, Some d =>
      if isValidBloodPressureValue s true && isValidBloodPressureValue d false
      then Some (mkBP true (Some s) (Some d) bp)
      else None
  | _, _ => None
  end.

Definition processBloodPressure (bp : any) : BloodPressureData :=
  let result := mkBP false None None bp in
  match bp with
  | JNull | JUndefined | JStr [] => result
  | JStr s =>
      let trimmedBp := trim s in
      if includes (toLowerCase trimmedBp) (str "invalid")
         || includes (toLowerCase trimmedBp) (str "n/a")
         || includes (toLowerCase trimmedBp) (str "error")
      then result
      else if includes trimmedBp [slash] then
        match split slash trimmedBp with
        | [p0; p1] =>
            let systolicStr := trim p0 in
            let diastolicStr := trim p1 in
            if is_empty systolicStr || is_empty diastolicStr then result
            else
              match checked_pair (parseNumericValue (JStr systolicStr))
                                 (parseNumericValue (JStr diastolicStr)) bp with
              | Some r => r
              | None => result
              end
        | _ => result
        end
      else result
  | JObj _ =>
      match checked_pair (parseNumericValue (get bp "systolic"))
                         (parseNumericValue (get bp "diastolic")) bp with
      | Some r => r
      | None => result
      end
  | _ => result
  end.

(** The code units matched by [/[°ºf℉]/gi]: U+00B0, U+00BA, f, F, U+2109. *)
Definition is_unit_marker (c : N) : bool :=
  ((c =? 176) || (c =? 186) || (c =? 102) || (c =? 70) || (c =? 8457))%N.

Definition processTemperature (temp : any) : FieldData :=
  let result := mkField false None temp in
  match temp with
  | JNull | JUndefined | JStr [] => result
  | JNum n =>
      if negb (Num.isNaN n) && isValidTemperature n
      then mkField true (Some n) temp
      else result
  | JStr s =>
      let trimmedTemp := trim s in
      if includes (toLowerCase trimmedTemp) (str "temp_error")
         || includes (toLowerCase trimmedTemp) (str "invalid")
         || includes (toLowerCase trimmedTemp) (str "n/a")
         || includes (toLowerCase trimmedTemp) (str "error")
      then result
      else
        let cleanTemp :=
          trim (filter (fun c => negb (is_unit_marker c)) trimmedTemp) in
        match parseNumericValue (JStr cleanTemp) with
        | Some numericTemp =>
            if isValidTemperature numericTemp
            then mkField true (Some numericTemp) temp
            else result
        | None => result
        end
  | _ => result
  end.

(** [id] is [patient.patient_id] as it is; the private method
    [validatePatientId] of the class is called nowhere. *)
Definition processPatient (patient : any) : ProcessedPatient :=
  mkPatient (get patient "patient_id")
            (processAge (get patient "age"))
            (processBloodPressure (get patient "blood_pressure"))
            (processTemperature (get patient "temperature")).

Definition hasDataQualityIssues (p : ProcessedPatient) : bool :=
  negb (valid (age_data p))
  || negb (bp_valid (blood_pressure_data p))
  || negb (valid (temperature_data p)).

(** [issues.push] appends. *)
Definition getDataQualityIssues (p : ProcessedPatient) : list jsstring :=
  let issues := [] in
  let issues :=
    if negb (valid (age_data p))
    then issues ++ [str "Invalid/missing age data"] else issues in
  let issues :=
    if negb (bp_valid (blood_pressure_data p))
    then issues ++ [str "Invalid/missing blood pressure data"] else issues in
  let issues :=
    if negb (valid (temperature_data p))
    then issues ++ [str "Invalid/missing temperature data"] else issues in
  issues.

Section PatientId.

(** [Number.prototype.toString], which this development does not model. *)
Variable numberToString : number -> jsstring.

(** The private method that no other method calls; a thrown error is
    [None]. *)
Definition validatePatientId (patient_id : any) : option jsstring :=
  match patient_id with
  | JStr s =>
      if negb (is_empty (trim s)) then Some (trim s) else None
  | JNum n => Some (numberToString n)
  | _ => None
  end.

End PatientId.

(** The loop of [processPatients]: the state is the index, the results
    and the indices reported in [errors]. *)
Fixpoint processPatients_loop (i : nat) (patients : list any)
    (results : list ProcessedPatient) (errors : list nat)
  : list ProcessedPatient * list nat :=
  match patients with
  | [] => (results, errors)
  | patient :: rest =>
      if negb (truthy (get patient "patient_id"))
      then processPatients_loop (S i) rest results (errors ++ [i])
      else processPatients_loop (S i) rest
             (results ++ [processPatient patient]) errors
  end.

Definition processPatients (patients : list any) : list ProcessedPatient :=
  fst (processPatients_loop 0 patients [] []).

(** The indices pushed to [errors], in the order of the pushes. *)
Definition processPatients_errors (patients : list any) : list nat :=
  snd (processPatients_loop 0 patients [] []).

Definition incr (b : bool) (n : nat) : nat := if b then S n else n.

(** One iteration of the loop of [getProcessingStats]. *)
Definition stats_step (stats : ProcessingStats) (patient : ProcessedPatient)
  : ProcessingStats :=
  let a := valid (age_data patient) in
  let b := bp_valid (blood_pressure_data patient) in
  let t := valid (temperature_data patient) in
  mkStats (total stats)
          (incr a (validAge stats))
          (incr b (validBP stats))
          (incr t (validTemp stats))
          (incr (a && b && t) (fullyValid stats))
          (incr (negb (a && b && t)) (dataQualityIssues stats)).

Definition getProcessingStats (processedPatients : list ProcessedPatient)
  : ProcessingStats :=
  fold_left stats_step processedPatients
    (mkStats (List.length processedPatients) 0 0 0 0 0).

End DataProcessor.

(** ** risk-calculator.ts *)

Module RiskCalculator.

Local Open Scope num_scope.

Definition stage_score (stage : BloodPressureStage) : nat :=
  match stage with
  | NORMAL => 1
  | ELEVATED => 2
  | STAGE_1 => 3
  | STAGE_2 => 4
  | INVALID => 0
  end.

(** The chain of rules of [calculateBloodPressureRisk], lines 54 to 71. *)
Definition finalStage (systolic diastolic : number) : BloodPressureStage :=
  if (systolic <? Fin 120) && (diastolic <? Fin 80) then NORMAL
  else if (systolic >=? Fin 120) && (systolic <=? Fin 129)
          && (diastolic <? Fin 80) then ELEVATED
  else if ((systolic >=? Fin 130) && (systolic <=? Fin 139))
          || ((diastolic >=? Fin 80) && (diastolic <=? Fin 89)) then STAGE_1
  else if (systolic >=? Fin 140) || (diastolic >=? Fin 90) then STAGE_2
  else INVALID.

Definition calculateBloodPressureRisk (p : ProcessedPatient) : nat :=
  let bpData := blood_pressure_data p in
  match bp_valid bpData, systolic bpData, diastolic bpData with
  | true, Some systolic, Some diastolic =>
      (* the two per-component stages are computed and not used *)
      let systolicStage :=
        if systolic <? Fin 120 then NORMAL
        else if (systolic >=? Fin 120) && (systolic <=? Fin 129) then ELEVATED
        else if (systolic >=? Fin 130) && (systolic <=? Fin 139) then STAGE_1
        else if systolic >=? Fin 140 then STAGE_2
        else INVALID in
      let diastolicStage :=
        if diastolic <? Fin 80 then NORMAL
        else if (diastolic >=? Fin 80) && (diastolic <=? Fin 89) then STAGE_1
        else if diastolic >=? Fin 90 then STAGE_2
        else INVALID in
      stage_score (finalStage systolic diastolic)
  | _, _, _ => 0
  end.

Definition calculateTemperatureRisk (p : ProcessedPatient) : nat :=
  let tempData := temperature_data p in
  match valid tempData, value tempData with
  | true, Some temperature =>
      if temperature <=? Fin 99.5 then 0
      else if (temperature >=? Fin 99.6) && (temperature <=? Fin 100.9) then 1
      else if temperature >=? Fin 101.0 then 2
      else 0
  | _, _ => 0
  end.

Definition calculateAgeRisk (p : ProcessedPatient) : nat :=
  let ageData := age_data p in
  match valid ageData, value ageData with
  | true, Some age =>
      if age <? Fin 40 then 1
      else if (age >=? Fin 40) && (age <=? Fin 65) then 1
      else if age >? Fin 65 then 2
      else 0
  | _, _ => 0
  end.

Definition calculateTotalRisk (p : ProcessedPatient) : nat :=
  let bpScore := calculateBloodPressureRisk p in
  let tempScore := calculateTemperatureRisk p in
  let ageScore := calculateAgeRisk p in
  bpScore + tempScore + ageScore.

Definition getDetailedRiskScores (p : ProcessedPatient) : RiskScores :=
  let bpScore := calculateBloodPressureRisk p in
  let tempScore := calculateTemperatureRisk p in
  let ageScore := calculateAgeRisk p in
  let total := (bpScore + tempScore + ageScore)%nat in
  mkScores bpScore tempScore ageScore total.

Definition isHighRisk (p : ProcessedPatient) : bool :=
  (4 <=? calculateTotalRisk p)%nat.

Definition hasFever (p : ProcessedPatient) : bool :=
  let tempData := temperature_data p in
  valid tempData &&
  match value tempData with
  | Some v => v >=? Fin 99.6
  | None => false
  end.

Definition getBloodPressureCategory (p : ProcessedPatient)
  : BloodPressureStage :=
  let bpData := blood_pressure_data p in
  match bp_valid bpData, systolic bpData, diastolic bpData with
  | true, Some systolic, Some diastolic =>
      (* the chain written out a second time, lines 192 to 202 *)
      if (systolic <? Fin 120) && (diastolic <? Fin 80) then NORMAL
      else if (systolic >=? Fin 120) && (systolic <=? Fin 129)
              && (diastolic <? Fin 80) then ELEVATED
      else if ((systolic >=? Fin 130) && (systolic <=? Fin 139))
              || ((diastolic >=? Fin 80) && (diastolic <=? Fin 89))
      then STAGE_1
      else if (systolic >=? Fin 140) || (diastolic >=? Fin 90) then STAGE_2
      else INVALID
  | _, _, _ => INVALID
  end.

Definition getTemperatureCategory (p : ProcessedPatient)
  : TemperatureCategory :=
  let tempData := temperature_data p in
  match valid tempData, value tempData with
  | true, Some temperature =>
      if temperature <=? Fin 99.5 then T_NORMAL
      else if (temperature >=? Fin 99.6) && (temperature <=? Fin 100.9)
      then LOW_FEVER
      else if temperature >=? Fin 101.0 then HIGH_FEVER
      else T_INVALID
  | _, _ => T_INVALID
  end.

Definition getAgeCategory (p : ProcessedPatient) : AgeCategory :=
  let ageData := age_data p in
  match valid ageData, value ageData with
  | true, Some age =>
      if age <? Fin 40 then UNDER_40
      else if (age >=? Fin 40) && (age <=? Fin 65) then MIDDLE_AGE
      else if age >? Fin 65 then OVER_65
      else A_INVALID
  | _, _ => A_INVALID
  end.

End RiskCalculator.

(** ** main.ts *)

Module HealthcareAssessmentApp.

(** One iteration of the loop of [generateAlerts]; [push] appends. *)
Definition alerts_step (acc : SubmissionData) (patient : ProcessedPatient)
  : SubmissionData :=
  let totalRisk := RiskCalculator.calculateTotalRisk patient in
  let highRiskPatients :=
    if (4 <=? totalRisk)%nat then high_risk_patients acc ++ [id patient]
    else high_risk_patients acc in
  let feverPatients :=
    if RiskCalculator.hasFever patient then fever_patients acc ++ [id patient]
    else fever_patients acc in
  let dataQualityIssues :=
    if DataProcessor.hasDataQualityIssues patient
    then data_quality_issues acc ++ [id patient]
    else data_quality_issues acc in
  mkSubmission highRiskPatients feverPatients dataQualityIssues.

Definition generateAlerts (processedPatients : list ProcessedPatient)
  : SubmissionData :=
  fold_left alerts_step processedPatients (mkSubmission [] [] []).

(** The batch pipeline of [run], without the transport: the alerts and
    the statistics of the processed records. *)
Definition pipeline (patients : list any) : SubmissionData * ProcessingStats :=
  let processedPatients := DataProcessor.processPatients patients in
  let stats := DataProcessor.getProcessingStats processedPatients in
  let alerts := generateAlerts processedPatients in
  (alerts, stats).

End HealthcareAssessmentApp.

(** ** api-client.ts

    The transport is an oracle: [get_patients page n] is the outcome of
    the [n]-th request (from 0) for [page].  The delays between attempts
    ([sleep], [calculateDelay]) and the console are not modelled. *)

Module HealthcareAPIClient.

(** An error thrown by a request, with the status of the response when
    there is one. *)
Record AxiosError : Type := mkError {
  response_status : option nat
}.

Record PaginatedResponse : Type := mkPage {
  data : option (list any);
  pagination_hasNext : option bool
}.

Definition maxRetries : nat := 3.

Definition isRetryableError (error : AxiosError) : bool :=
  match response_status error with
  | None => true
  | Some status => ((500 <=? status) || (status =? 429))%nat
  end.

Section Retry.
Variable T : Type.
Variable requestFn : nat -> AxiosError + T.

(** The loop of [executeWithRetry] from the attempt [attempt], with
    [remaining = maxRetries - attempt]; the result is the value returned
    ([inr]) or the error thrown ([inl]), and the number of calls of
    [requestFn] made so far. *)
Fixpoint retry_loop (remaining attempt : nat) : (AxiosError + T) * nat :=
  match requestFn attempt with
  | inr response_data => (inr response_data, S attempt)
  | inl error =>
      match remaining with
      | O => (inl error, S attempt)
      | S remaining' =>
          match response_status error with
          | Some _ =>
              if negb (isRetryableError error) then (inl error, S attempt)
              else retry_loop remaining' (S attempt)
          | None => retry_loop remaining' (S attempt)
          end
      end
  end.

Definition executeWithRetry : (AxiosError + T) * nat :=
  retry_loop maxRetries 0.

End Retry.

Section Fetch.
Variable get_patients : nat -> nat -> AxiosError + PaginatedResponse.

Definition fetchPatientsPage (page : nat) : AxiosError + PaginatedResponse :=
  fst (executeWithRetry (get_patients page)).

(** The loop of [fetchAllPatients]; [fuel] bounds the iterations, and 20
    is enough (see [fetch_loop_fuel]). *)
Fixpoint fetch_loop (fuel page : nat) (allPatients : list any)
  : AxiosError + list any :=
  match fuel with
  | O => inr allPatients
  | S fuel' =>
      match fetchPatientsPage page with
      | inl error => inl error
      | inr response =>
          let patients :=
            match data response with Some d => d | None => [] end in
          if is_empty patients then inr allPatients
          else
            let allPatients := allPatients ++ patients in
            let hasMore :=
              match pagination_hasNext response with
              | Some b => b
              | None => false
              end in
            let page := S page in
            if (20 <? page)%nat then inr allPatients
            else if hasMore then fetch_loop fuel' page allPatients
            else inr allPatients
      end
  end.

Definition fetchAllPatients : AxiosError + list any := fetch_loop 20 1 [].

End Fetch.

End HealthcareAPIClient.

(** * Vocabulary of the specification *)

Import DataProcessor RiskCalculator HealthcareAssessmentApp.

(** The head of [l], if any, fails [p]. *)
Definition head_fails (A : Type) (p : A -> bool) (l : list A) : Prop :=
  match l with [] => True | x :: _ => p x = false end.

Definition record (patient_id age blood_pressure temperature : any) : any :=
  JObj [("patient_id"%string, patient_id); ("age"%string, age);
        ("blood_pressure"%string, blood_pressure);
        ("temperature"%string, temperature)].

Definition example_batch : list any :=
  [ record (JStr (str "A")) (JNum (Fin 45)) (JStr (str "120/80"))
           (JNum (Fin 98.6));
    record (JStr (str "B")) (JNum (Fin 67)) (JStr (str "140/90"))
           (JNum (Fin 99.2));
    record (JStr (str "C")) JNull (JStr (str "invalid"))
           (JNum (Fin 101.8)) ].

(** [p] carries a valid blood-pressure pair of finite values. *)
Definition has_bp (p : ProcessedPatient) (s d : Q) : Prop :=
  bp_valid (blood_pressure_data p) = true
  /\ systolic (blood_pressure_data p) = Some (Fin s)
  /\ diastolic (blood_pressure_data p) = Some (Fin d).

Definition rule_normal (s d : Q) : Prop := s < 120 /\ d < 80.
Definition rule_elevated (s d : Q) : Prop := (120 <= s /\ s <= 129) /\ d < 80.
Definition rule_stage1 (s d : Q) : Prop :=
  (130 <= s /\ s <= 139) \/ (80 <= d /\ d <= 89).
Definition rule_stage2 (s d : Q) : Prop := 140 <= s \/ 90 <= d.

Definition bp_patient (s d : Q) : ProcessedPatient :=
  mkPatient (JStr (str "P")) (mkField false None JUndefined)
            (mkBP true (Some (Fin s)) (Some (Fin d)) JUndefined)
            (mkField false None JUndefined).

Definition temp_patient (valid : bool) (v : option number) : ProcessedPatient :=
  mkPatient (JStr (str "P")) (mkField false None JUndefined)
            (mkBP false None None JUndefined)
            (mkField valid v JUndefined).

(** [t >= q] for a number [t], as JavaScript compares: false on [NaN]. *)
Definition at_least (t : number) (q : Q) : Prop :=
  match t with
  | Fin x => q <= x
  | PosInf => True
  | NaN | NegInf => False
  end.

(** [t] is [ds], or [ds . fs] with [fs] not empty; [ds] and [fs] are
    runs of decimal digits and [ds] is not empty. *)
Definition unsigned_decimal_pattern (t ds fs : jsstring) : Prop :=
  ds <> [] /\ forallb is_digit ds = true /\ forallb is_digit fs = true
  /\ ((fs = [] /\ t = ds) \/ (fs <> [] /\ t = ds ++ dot :: fs)).

(** The trimmed form of [s] is written in the unsigned
    integer-or-decimal pattern and [parseFloat] reads it as the finite
    number [a]. *)
Definition age_string_form (s : jsstring) (a : Q) : Prop :=
  (exists ds fs, unsigned_decimal_pattern (trim s) ds fs)
  /\ parseFloat (trim s) = Fin a.

(** [pat], written in lower case, occurs in [s] whatever the case. *)
Definition contains_ci (s pat : jsstring) : Prop :=
  exists pre post, toLowerCase s = pre ++ pat ++ post.

(** [parseFloat t] is the number [n]. *)
Definition parseable (t : jsstring) (n : number) : Prop :=
  parseFloat t = n /\ n <> NaN.

(** [n] is finite and lies in [[lo, hi]]. *)
Definition in_range (lo hi : Q) (n : number) : Prop :=
  exists q, n = Fin q /\ lo <= q /\ q <= hi.

(** The string [s] has none of the three markers, and its trimmed form
    has exactly one slash, between two parts that are not blank and are
    read as the numbers [sys] and [dia]. *)
Definition bp_string_form (s : jsstring) (sys dia : number) : Prop :=
  ~ contains_ci s (str "invalid") /\ ~ contains_ci s (str "n/a")
  /\ ~ contains_ci s (str "error")
  /\ exists l r, trim s = l ++ slash :: r /\ ~ In slash l /\ ~ In slash r
                 /\ trim l <> [] /\ trim r <> []
                 /\ parseable (trim l) sys /\ parseable (trim r) dia.

(** [v] is a number other than [NaN], or a string read as a number. *)
Definition numeric_coercible (v : any) (n : number) : Prop :=
  (v = JNum n /\ n <> NaN) \/ (exists s, v = JStr s /\ parseable (trim s) n).

Definition bp_object_form (v : any) (sys dia : number) : Prop :=
  (exists props, v = JObj props)
  /\ numeric_coercible (get v "systolic") sys
  /\ numeric_coercible (get v "diastolic") dia.

Definition bp_form (v : any) (sys dia : number) : Prop :=
  (exists s, v = JStr s /\ bp_string_form s sys dia)
  \/ bp_object_form v sys dia.

(** What the two branches of [processBloodPressure] return, given the
    two parsed components. *)
Definition pair_result (a b : option number) (bp : any) : BloodPressureData :=
  match checked_pair a b bp with
  | Some r => r
  | None => mkBP false None None bp
  end.

(** ** Vocabulary of the further properties *)

(** The score that [calculateTemperatureRisk] returns in the branch of
    each category. *)
Definition temperature_category_score (c : TemperatureCategory) : nat :=
  match c with
  | T_NORMAL => 0
  | LOW_FEVER => 1
  | HIGH_FEVER => 2
  | T_INVALID => 0
  end.

(** The score that [calculateAgeRisk] returns in the branch of each
    category. *)
Definition age_category_score (c : AgeCategory) : nat :=
  match c with
  | UNDER_40 => 1
  | MIDDLE_AGE => 1
  | OVER_65 => 2
  | A_INVALID => 0
  end.

Definition age_patient (valid : bool) (v : option number) : ProcessedPatient :=
  mkPatient (JStr (str "P")) (mkField valid v JUndefined)
            (mkBP false None None JUndefined)
            (mkField false None JUndefined).

(** The test of [processPatients] on a raw record: [patient?.patient_id]
    is truthy. *)
Definition has_patient_id (r : any) : bool := truthy (get r "patient_id").

(** [s] without the code units that [/[°ºf℉]/gi] matches. *)
Definition strip_units (s : jsstring) : jsstring :=
  filter (fun c => negb (is_unit_marker c)) s.

(** The string [s] has none of the markers "invalid", "n/a", "error",
    and, trimmed, stripped of unit markers and trimmed again, is read as
    the number [n]. *)
Definition temp_string_form (s : jsstring) (n : number) : Prop :=
  ~ contains_ci s (str "invalid") /\ ~ contains_ci s (str "n/a")
  /\ ~ contains_ci s (str "error")
  /\ parseable (trim (strip_units (trim s))) n.

(** The pairs that no rule of the blood-pressure chain covers lie
    strictly between two integers. *)
Definition bp_gap (s d : Q) : Prop :=
  (129 < s /\ s < 130) \/ (139 < s /\ s < 140) \/ (89 < d /\ d < 90).

(** The characters of a plain reading: digits, the dot, the slash and
    the unit markers. *)
Definition plain_char (c : N) : bool :=
  is_digit c || (c =? dot)%N || (c =? slash)%N || is_unit_marker c.

(** The patients of [page], when its fetch succeeds. *)
Definition page_patients
    (get_patients : nat -> nat -> HealthcareAPIClient.AxiosError
                                  + HealthcareAPIClient.PaginatedResponse)
    (page : nat) : list any :=
  match HealthcareAPIClient.fetchPatientsPage get_patients page with
  | inr response =>
      match HealthcareAPIClient.data response with
      | Some d => d
      | None => []
      end
  | inl _ => []
  end.

(** The fetch of [page] succeeds with at least one patient. *)
Definition page_filled
    (get_patients : nat -> nat -> HealthcareAPIClient.AxiosError
                                  + HealthcareAPIClient.PaginatedResponse)
    (page : nat) : Prop :=
  (exists response,
      HealthcareAPIClient.fetchPatientsPage get_patients page = inr response)
  /\ page_patients get_patients page <> [].

(** The fetch of [page] succeeds and announces a next page. *)
Definition page_has_next
    (get_patients : nat -> nat -> HealthcareAPIClient.AxiosError
                                  + HealthcareAPIClient.PaginatedResponse)
    (page : nat) : Prop :=
  exists response,
    HealthcareAPIClient.fetchPatientsPage get_patients page = inr response
    /\ HealthcareAPIClient.pagination_hasNext response = Some true.

(** The raw [patient_id] of a record. *)
Definition raw_id (r : any) : any := get r "patient_id".

(** * Properties *)

(** ** Comparisons of numbers *)

Lemma Qlt_bool_iff (a b : Q) : Num.Qlt_bool a b = true <-> a < b.
Proof.
  unfold Num.Qlt_bool. rewrite negb_true_iff. split; intro H.
  - apply Qnot_le_lt. intro L. apply Qle_bool_iff in L. congruence.
  - destruct (Qle_bool b a) eqn:E; [|reflexivity].
    apply Qle_bool_iff in E. lra.
Qed.

Lemma Qlt_bool_false (a b : Q) : Num.Qlt_bool a b = false <-> b <= a.
Proof.
  unfold Num.Qlt_bool. rewrite negb_false_iff. apply Qle_bool_iff.
Qed.

Lemma Qle_bool_false (a b : Q) : Qle_bool a b = false <-> b < a.
Proof.
  split; intro H.
  - apply Qnot_le_lt. intro L. apply Qle_bool_iff in L. congruence.
  - destruct (Qle_bool a b) eqn:E; [|reflexivity].
    apply Qle_bool_iff in E. lra.
Qed.

(** Turns every comparison of two finite numbers in the goal and the
    context into an inequality of rationals, by cases. *)
Ltac num_cases :=
  unfold Num.ge, Num.gt, Num.le, Num.lt in *;
  repeat match goal with
  | |- context [Qle_bool ?a ?b] =>
      let E := fresh "E" in
      destruct (Qle_bool a b) eqn:E;
      [apply Qle_bool_iff in E | apply Qle_bool_false in E]
  | |- context [Num.Qlt_bool ?a ?b] =>
      let E := fresh "E" in
      destruct (Num.Qlt_bool a b) eqn:E;
      [apply Qlt_bool_iff in E | apply Qlt_bool_false in E]
  | H : context [Qle_bool ?a ?b] |- _ =>
      let E := fresh "E" in
      destruct (Qle_bool a b) eqn:E;
      [apply Qle_bool_iff in E | apply Qle_bool_false in E]
  | H : context [Num.Qlt_bool ?a ?b] |- _ =>
      let E := fresh "E" in
      destruct (Num.Qlt_bool a b) eqn:E;
      [apply Qlt_bool_iff in E | apply Qlt_bool_false in E]
  end;
  simpl in *.

(** ** Strings *)

Section SpanFacts.
Variable A : Type.
Variable p : A -> bool.

Lemma takeWhile_dropWhile (l : list A) : takeWhile p l ++ dropWhile p l = l.
Proof.
  induction l as [|x t IH]; simpl; [reflexivity|].
  destruct (p x); simpl; congruence.
Qed.

Lemma takeWhile_all (l : list A) : forallb p (takeWhile p l) = true.
Proof.
  induction l as [|x t IH]; simpl; [reflexivity|].
  destruct (p x) eqn:E; simpl; [rewrite E; exact IH | reflexivity].
Qed.

Lemma dropWhile_head (l : list A) : head_fails p (dropWhile p l).
Proof.
  induction l as [|x t IH]; simpl; [exact I|].
  destruct (p x) eqn:E; [exact IH | exact E].
Qed.

Lemma span_app (l r : list A) :
  forallb p l = true -> head_fails p r ->
  takeWhile p (l ++ r) = l /\ dropWhile p (l ++ r) = r.
Proof.
  intros Hl Hr. induction l as [|x t IH]; simpl in *.
  - destruct r as [|y r]; simpl in *; [auto|]. rewrite Hr. auto.
  - apply andb_true_iff in Hl. destruct Hl as [Hx Ht].
    rewrite Hx. destruct (IH Ht) as [E1 E2]. rewrite E1, E2. auto.
Qed.

Lemma dropWhile_id (l : list A) : head_fails p l -> dropWhile p l = l.
Proof. destruct l as [|x t]; simpl; [auto|]. intros ->. reflexivity. Qed.

Lemma dropWhile_idem (l : list A) :
  dropWhile p (dropWhile p l) = dropWhile p l.
Proof. apply dropWhile_id, dropWhile_head. Qed.

Lemma dropWhile_nil_all (l : list A) :
  dropWhile p l = [] -> forallb p l = true.
Proof.
  induction l as [|x t IH]; simpl; [reflexivity|].
  destruct (p x); [exact IH | discriminate].
Qed.

Lemma dropWhile_all (l : list A) : forallb p l = true -> dropWhile p l = [].
Proof.
  induction l as [|x t IH]; simpl; [reflexivity|].
  destruct (p x); simpl; [exact IH | discriminate].
Qed.

End SpanFacts.

Lemma is_empty_false (A : Type) (l : list A) : is_empty l = false <-> l <> [].
Proof. destruct l; simpl; split; congruence. Qed.

Lemma is_empty_true (A : Type) (l : list A) : is_empty l = true <-> l = [].
Proof. destruct l; simpl; split; congruence. Qed.

(** *** [trim] *)

Lemma trimEnd_prefix (s : jsstring) :
  exists w, s = trimEnd s ++ w /\ forallb is_whitespace w = true.
Proof.
  exists (rev (takeWhile is_whitespace (rev s))). split.
  - unfold trimEnd. rewrite <- rev_app_distr, takeWhile_dropWhile.
    symmetry. apply rev_involutive.
  - rewrite forallb_forall. intros x Hx. apply in_rev in Hx.
    pose proof (takeWhile_all is_whitespace (rev s)) as H.
    rewrite forallb_forall in H. auto.
Qed.

Lemma trimEnd_idem (s : jsstring) : trimEnd (trimEnd s) = trimEnd s.
Proof.
  unfold trimEnd. rewrite rev_involutive, dropWhile_idem. reflexivity.
Qed.

Lemma trimStart_trimEnd (s : jsstring) :
  head_fails is_whitespace s -> trimStart (trimEnd s) = trimEnd s.
Proof.
  intros H. apply dropWhile_id.
  destruct (trimEnd_prefix s) as (w & E & _).
  destruct (trimEnd s) as [|c t]; [exact I|].
  rewrite E in H. exact H.
Qed.

Lemma trim_idem (s : jsstring) : trim (trim s) = trim s.
Proof.
  unfold trim. rewrite trimStart_trimEnd.
  - apply trimEnd_idem.
  - apply dropWhile_head.
Qed.

Lemma trim_decomposition (s : jsstring) :
  exists w1 w2, s = w1 ++ trim s ++ w2
                /\ forallb is_whitespace w1 = true
                /\ forallb is_whitespace w2 = true.
Proof.
  destruct (trimEnd_prefix (trimStart s)) as (w2 & E & H2).
  exists (takeWhile is_whitespace s), w2. repeat split.
  - unfold trim. rewrite <- E. symmetry. apply takeWhile_dropWhile.
  - apply takeWhile_all.
  - exact H2.
Qed.

(** *** Digits *)

Lemma digit_facts (c : N) :
  is_digit c = true ->
  is_whitespace c = false /\ (c =? 43)%N = false /\ (c =? 45)%N = false
  /\ (c =? dot)%N = false /\ (c =? 73)%N = false.
Proof.
  unfold is_digit, is_whitespace, dot. intros H.
  apply andb_true_iff in H. destruct H as [H1 H2].
  apply N.leb_le in H1. apply N.leb_le in H2.
  repeat match goal with
  | |- context [(c =? ?k)%N] =>
      let E := fresh in
      destruct (N.eqb_spec c k) as [E|E]; [exfalso; lia | clear E]
  | |- context [(?k <=? c)%N] =>
      let E := fresh in
      destruct (N.leb_spec k c) as [E|E]; [exfalso; lia | clear E]
  end.
  simpl. auto.
Qed.

Lemma dot_not_digit : is_digit dot = false.
Proof. reflexivity. Qed.

(** A string that starts with a digit is parsed from its first
    character on. *)
Lemma parseFloat_digit_first (c : N) (t : jsstring) :
  is_digit c = true ->
  parseFloat (c :: t)
  = (let s := c :: t in
     let ds := takeWhile is_digit s in
     match dropWhile is_digit s with
     | c' :: rest' =>
         if (c' =? dot)%N then
           Fin (decimal_value ds (takeWhile is_digit rest')
                * pow10 (exponent_part (dropWhile is_digit rest')))
         else Fin (inject_Z (digits_value ds) * pow10 (exponent_part (c' :: rest')))
     | [] => Fin (inject_Z (digits_value ds))
     end).
Proof.
  intros Hc. destruct (digit_facts c Hc) as (Hw & Hp & Hm & _ & HI).
  unfold parseFloat, trimStart. simpl dropWhile. rewrite Hw, Hp, Hm.
  unfold unsigned_decimal_literal.
  replace (startsWith (c :: t) (str "Infinity")) with false
    by (simpl; rewrite HI; reflexivity).
  cbv zeta. simpl takeWhile. simpl dropWhile. rewrite Hc. simpl is_empty.
  destruct (dropWhile is_digit t) as [|c' rest']; [reflexivity|].
  destruct (c' =? dot)%N; reflexivity.
Qed.

(** *** The pattern of an age *)

Lemma age_pattern_spec (t : jsstring) :
  age_pattern t = true <-> exists ds fs, unsigned_decimal_pattern t ds fs.
Proof.
  unfold age_pattern, unsigned_decimal_pattern. split.
  - intros H. apply andb_true_iff in H. destruct H as [Hds H].
    apply negb_true_iff, is_empty_false in Hds.
    pose proof (takeWhile_dropWhile is_digit t) as Et.
    pose proof (takeWhile_all is_digit t) as Hall.
    destruct (dropWhile is_digit t) as [|c rest].
    + exists (takeWhile is_digit t), []. rewrite app_nil_r in Et.
      repeat split; auto.
    + apply andb_true_iff in H. destruct H as [H Hrest].
      apply andb_true_iff in H. destruct H as [Hc Hne].
      apply N.eqb_eq in Hc. subst c.
      apply negb_true_iff, is_empty_false in Hne.
      apply is_empty_true, dropWhile_nil_all in Hrest.
      exists (takeWhile is_digit t), rest. repeat split; auto.
  - intros (ds & fs & Hne & Hds & Hfs & [[-> ->] | [Hfne ->]]).
    + destruct (span_app is_digit ds [] Hds I) as [E1 E2].
      rewrite app_nil_r in E1, E2. rewrite E1, E2.
      apply is_empty_false in Hne. rewrite Hne. reflexivity.
    + destruct (span_app is_digit ds (dot :: fs) Hds dot_not_digit)
        as [E1 E2].
      rewrite E1, E2.
      apply is_empty_false in Hne. rewrite Hne.
      apply is_empty_false in Hfne. rewrite Hfne.
      rewrite (dropWhile_all _ _ Hfs). reflexivity.
Qed.

(** ** Substrings and splitting *)

Lemma startsWith_spec (s pat : jsstring) :
  startsWith s pat = true <-> exists post, s = pat ++ post.
Proof.
  revert s. induction pat as [|p pat IH]; intros s; simpl.
  - split; [intros _; exists s; reflexivity | reflexivity].
  - destruct s as [|c s].
    + split; [discriminate | intros (post & E); discriminate].
    + rewrite andb_true_iff, N.eqb_eq, IH. split.
      * intros [-> (post & ->)]. exists post. reflexivity.
      * intros (post & E). injection E as -> ->. split; eauto.
Qed.

Lemma includes_spec (s pat : jsstring) :
  includes s pat = true <-> exists pre post, s = pre ++ pat ++ post.
Proof.
  induction s as [|c s IH]; simpl.
  - rewrite orb_false_r, startsWith_spec. split.
    + intros (post & E). exists [], post. exact E.
    + intros (pre & post & E). destruct pre as [|x pre]; [|discriminate].
      exists post. exact E.
  - rewrite orb_true_iff, startsWith_spec, IH. split.
    + intros [(post & E) | (pre & post & E)].
      * exists [], post. exact E.
      * exists (c :: pre), post. rewrite E. reflexivity.
    + intros (pre & post & E). destruct pre as [|x pre].
      * left. exists post. exact E.
      * right. injection E as -> ->. eauto.
Qed.

Lemma split_single (sep : N) (s l : jsstring) :
  split sep s = [l] <-> s = l /\ ~ In sep l.
Proof.
  revert l. induction s as [|c s IH]; intros l; simpl.
  - split.
    + intros E. injection E as <-. auto.
    + intros [<- _]. reflexivity.
  - destruct (N.eqb_spec c sep) as [->|Hne].
    + split.
      * intros E. injection E as <- E. destruct s; simpl in E; try discriminate.
        destruct (_ =? _)%N; [discriminate|].
        destruct (split sep s); discriminate.
      * intros [<- Hn]. exfalso. apply Hn. left. reflexivity.
    + destruct (split sep s) as [|h r] eqn:Es.
      * exfalso. destruct s as [|x s]; simpl in Es; [discriminate|].
        destruct (x =? sep)%N; [discriminate|].
        destruct (split sep s); discriminate.
      * split.
        -- intros E. injection E as <- ->.
           destruct (proj1 (IH h) eq_refl) as [-> Hn].
           split; [reflexivity|]. intros [E|E]; [congruence | auto].
        -- intros [<- Hn].
           assert (Hs : [h] = [s] /\ r = []).
           { assert (K : h :: r = [s]).
             { apply IH. split; [reflexivity|]. intros Hi. apply Hn.
               right. exact Hi. }
             injection K as -> ->. auto. }
           destruct Hs as [Hh ->]. injection Hh as ->. reflexivity.
Qed.

Lemma split_pair (sep : N) (s l r : jsstring) :
  split sep s = [l; r] <->
  s = l ++ sep :: r /\ ~ In sep l /\ ~ In sep r.
Proof.
  revert l. induction s as [|c s IH]; intros l; simpl.
  - split; [discriminate|]. intros (E & _). destruct l; discriminate.
  - destruct (N.eqb_spec c sep) as [->|Hne].
    + split.
      * intros E. injection E as <- E. apply split_single in E.
        destruct E as [-> Hn]. simpl. auto.
      * intros (E & Hl & Hr). destruct l as [|x l].
        -- simpl in E. injection E as ->.
           assert (K : split sep r = [r]) by (apply split_single; auto).
           rewrite K. reflexivity.
        -- exfalso. injection E as <- _. apply Hl. left. reflexivity.
    + destruct (split sep s) as [|h t] eqn:Es.
      * split; [discriminate|]. intros (E & Hl & Hr).
        destruct l as [|x l]; [injection E as E _; congruence|].
        injection E as _ E.
        assert (K : [] = [l; r]) by (apply IH; split; [exact E|];
          split; [intros Hi; apply Hl; right; exact Hi | exact Hr]).
        discriminate.
      * split.
        -- intros E. injection E as <- ->.
           destruct (proj1 (IH h) eq_refl) as (-> & Hl & Hr).
           split; [reflexivity|]. split; [|exact Hr].
           intros [E|E]; [congruence | auto].
        -- intros (E & Hl & Hr).
           destruct l as [|x l]; [injection E as E _; congruence|].
           injection E as <- E.
           assert (K : h :: t = [l; r]) by (apply IH; split; [exact E|];
             split; [intros Hi; apply Hl; right; exact Hi | exact Hr]).
           injection K as -> ->. reflexivity.
Qed.

Lemma split_pair_includes (sep : N) (s l r : jsstring) :
  split sep s = [l; r] -> includes s [sep] = true.
Proof.
  intros H. apply split_pair in H. destruct H as (-> & _).
  apply includes_spec. exists l, r. reflexivity.
Qed.

(** *** Case-insensitive substrings *)

Lemma occurrence_strip_left (w b pre post pat : jsstring) (p0 : N) :
  (forall x, In x w -> x <> p0) ->
  w ++ b = pre ++ (p0 :: pat) ++ post ->
  exists pre', b = pre' ++ (p0 :: pat) ++ post.
Proof.
  revert pre. induction w as [|x w IH]; intros pre Hw E; simpl in E.
  - eauto.
  - destruct pre as [|y pre]; simpl in E.
    + injection E as -> _. exfalso. apply (Hw p0); [left|]; reflexivity.
    + injection E as _ E. apply (IH pre); [|exact E].
      intros z Hz. apply Hw. right. exact Hz.
Qed.

Lemma occurrence_strip_right (w b pre post pat : jsstring) (pl : N) :
  (forall x, In x w -> x <> pl) ->
  b ++ w = pre ++ (pat ++ [pl]) ++ post ->
  exists post', b = pre ++ (pat ++ [pl]) ++ post'.
Proof.
  revert post. induction w as [|x w IH] using rev_ind; intros post Hw E.
  - rewrite app_nil_r in E. eauto.
  - destruct post as [|y0 post1] eqn:Ep;
      [|destruct (@exists_last _ (y0 :: post1)) as (post0 & y & Ey);
        [discriminate | rewrite Ey in *; clear Ey]].
    + rewrite app_nil_r in E. rewrite !app_assoc in E.
      apply app_inj_tail in E. destruct E as [_ ->].
      exfalso. apply (Hw pl); [|reflexivity].
      apply in_or_app. right. left. reflexivity.
    + rewrite !app_assoc in E. apply app_inj_tail in E.
      destruct E as [E _]. apply (IH post0).
      * intros z Hz. apply Hw. apply in_or_app. left. exact Hz.
      * rewrite E. rewrite !app_assoc. reflexivity.
Qed.

Lemma lower_whitespace (c : N) : is_whitespace c = true -> lower c = c.
Proof.
  unfold lower. intros Hw.
  destruct ((65 <=? c) && (c <=? 90))%N eqn:E; [|reflexivity].
  apply andb_true_iff in E. destruct E as [H1 H2].
  apply N.leb_le in H1. apply N.leb_le in H2.
  exfalso. revert Hw. unfold is_whitespace.
  repeat match goal with
  | |- context [(c =? ?k)%N] =>
      let E := fresh in
      destruct (N.eqb_spec c k) as [E|E]; [exfalso; lia | clear E]
  | |- context [(?k <=? c)%N] =>
      let E := fresh in
      destruct (N.leb_spec k c) as [E|E]; [exfalso; lia | clear E]
  end.
  simpl. discriminate.
Qed.

Lemma lowered_whitespace_differs (w : jsstring) (c : N) :
  forallb is_whitespace w = true -> is_whitespace c = false ->
  forall x, In x (toLowerCase w) -> x <> c.
Proof.
  intros Hw Hc x Hx E. subst x. unfold toLowerCase in Hx.
  apply in_map_iff in Hx. destruct Hx as (y & Ey & Hy).
  rewrite forallb_forall in Hw. specialize (Hw y Hy).
  rewrite (lower_whitespace y Hw) in Ey. congruence.
Qed.

(** Trimming does not change whether a pattern without white space at
    either end occurs. *)
Lemma contains_ci_trim (s pat : jsstring) (p0 pl : N) (mid1 mid2 : jsstring) :
  pat = p0 :: mid1 -> pat = mid2 ++ [pl] ->
  is_whitespace p0 = false -> is_whitespace pl = false ->
  contains_ci (trim s) pat <-> contains_ci s pat.
Proof.
  intros E1 E2 H0 Hl. unfold contains_ci.
  destruct (trim_decomposition s) as (w1 & w2 & Es & Hw1 & Hw2).
  assert (El : toLowerCase s
               = toLowerCase w1 ++ toLowerCase (trim s) ++ toLowerCase w2).
  { rewrite Es at 1. unfold toLowerCase. rewrite !map_app. reflexivity. }
  split.
  - intros (pre & post & E). rewrite El, E.
    exists (toLowerCase w1 ++ pre), (post ++ toLowerCase w2).
    rewrite <- !app_assoc. reflexivity.
  - intros (pre & post & E). rewrite El in E.
    rewrite E1 in E.
    apply occurrence_strip_left in E;
      [|apply lowered_whitespace_differs; assumption].
    destruct E as (pre' & E). rewrite <- E1, E2 in E.
    apply occurrence_strip_right in E;
      [|apply lowered_whitespace_differs; assumption].
    destruct E as (post' & E). rewrite <- E2 in E.
    exists pre', post'. exact E.
Qed.

Lemma includes_ci (s pat : jsstring) (p0 pl : N) (mid1 mid2 : jsstring) :
  pat = p0 :: mid1 -> pat = mid2 ++ [pl] ->
  is_whitespace p0 = false -> is_whitespace pl = false ->
  includes (toLowerCase (trim s)) pat = false <-> ~ contains_ci s pat.
Proof.
  intros E1 E2 H0 Hl.
  rewrite <- (@contains_ci_trim s pat p0 pl mid1 mid2 E1 E2 H0 Hl).
  unfold contains_ci. rewrite <- includes_spec.
  destruct (includes (toLowerCase (trim s)) pat); split; congruence.
Qed.

(** ** The example batch of the specification *)

(** Record A alone: 120/80 is Stage 1 by its diastolic value. *)
Lemma record_A_scores :
  let p := processPatient (record (JStr (str "A")) (JNum (Fin 45))
                                  (JStr (str "120/80")) (JNum (Fin 98.6))) in
  calculateBloodPressureRisk p = 3%nat /\ calculateTemperatureRisk p = 0%nat
  /\ calculateAgeRisk p = 1%nat /\ calculateTotalRisk p = 4%nat.
Proof. vm_compute. repeat split. Qed.

(** C1, as stated: the batch pipeline does not yield
    high_risk_patients = ["B"] on the example batch. *)
Lemma C1_high_risk_is_not_only_B :
  ~ (let (alerts, stats) := pipeline example_batch in
     high_risk_patients alerts = [JStr (str "B")]
     /\ fever_patients alerts = [JStr (str "C")]
     /\ data_quality_issues alerts = [JStr (str "C")]
     /\ total stats = 3%nat /\ fullyValid stats = 2%nat).
Proof.
  vm_compute. intros [H _]. discriminate H.
Qed.

(** C1, amended: on the example batch the pipeline yields
    high_risk_patients = ["A", "B"] (A scores 3 + 0 + 1 = 4),
    fever_patients = ["C"], data_quality_issues = ["C"], stats.total = 3
    and stats.fullyValid = 2. *)
Theorem C1_example_batch :
  let (alerts, stats) := pipeline example_batch in
  high_risk_patients alerts = [JStr (str "A"); JStr (str "B")]
  /\ fever_patients alerts = [JStr (str "C")]
  /\ data_quality_issues alerts = [JStr (str "C")]
  /\ total stats = 3%nat /\ fullyValid stats = 2%nat.
Proof. vm_compute. repeat split. Qed.

(** ** Blood-pressure rules *)

(** C2: on a valid pair the score is that of the first rule that
    matches, in the order Normal (1), Elevated (2), Stage 1 (3),
    Stage 2 (4); (119,79) scores 1, (125,70) scores 2, (135,70) and
    (110,85) score 3, (145,70) scores 4. *)
Theorem C2_first_match_wins :
  (forall p s d, has_bp p s d ->
     (rule_normal s d -> calculateBloodPressureRisk p = 1%nat)
     /\ (~ rule_normal s d -> rule_elevated s d ->
         calculateBloodPressureRisk p = 2%nat)
     /\ (~ rule_normal s d -> ~ rule_elevated s d -> rule_stage1 s d ->
         calculateBloodPressureRisk p = 3%nat)
     /\ (~ rule_normal s d -> ~ rule_elevated s d -> ~ rule_stage1 s d ->
         rule_stage2 s d -> calculateBloodPressureRisk p = 4%nat))
  /\ (forall p, has_bp p 119 79 -> calculateBloodPressureRisk p = 1%nat)
  /\ (forall p, has_bp p 125 70 -> calculateBloodPressureRisk p = 2%nat)
  /\ (forall p, has_bp p 135 70 -> calculateBloodPressureRisk p = 3%nat)
  /\ (forall p, has_bp p 110 85 -> calculateBloodPressureRisk p = 3%nat)
  /\ (forall p, has_bp p 145 70 -> calculateBloodPressureRisk p = 4%nat).
Proof.
  split.
  - intros p s d (Hv & Hs & Hd).
    unfold calculateBloodPressureRisk, finalStage.
    rewrite Hv, Hs, Hd.
    unfold rule_normal, rule_elevated, rule_stage1, rule_stage2.
    repeat split; intros; num_cases; try reflexivity; exfalso; lra.
  - repeat split; intros p (Hv & Hs & Hd);
      unfold calculateBloodPressureRisk; rewrite Hv, Hs, Hd; reflexivity.
Qed.

Lemma C2_first_match_wins_witness :
  has_bp (bp_patient 110 85) 110 85
  /\ ~ rule_normal 110 85 /\ ~ rule_elevated 110 85 /\ rule_stage1 110 85
  /\ calculateBloodPressureRisk (bp_patient 110 85) = 3%nat.
Proof.
  assert (Hp : has_bp (bp_patient 110 85) 110 85)
    by (repeat split; reflexivity).
  assert (H1 : ~ rule_normal 110 85) by (unfold rule_normal; lra).
  assert (H2 : ~ rule_elevated 110 85) by (unfold rule_elevated; lra).
  assert (H3 : rule_stage1 110 85) by (unfold rule_stage1; lra).
  refine (conj Hp (conj H1 (conj H2 (conj H3 _)))).
  exact (proj1 (proj2 (proj2 (proj1 C2_first_match_wins _ _ _ Hp))) H1 H2 H3).
Defined.

(** ** Temperature bands *)

(** The three bands, as far as they reach. *)
Lemma temperature_bands (p : ProcessedPatient) (t : Q) :
  valid (temperature_data p) = true ->
  value (temperature_data p) = Some (Fin t) ->
  (t <= 99.5 -> calculateTemperatureRisk p = 0%nat)
  /\ (99.6 <= t -> t <= 100.9 -> calculateTemperatureRisk p = 1%nat)
  /\ (101.0 <= t -> calculateTemperatureRisk p = 2%nat).
Proof.
  intros Hv Ht. unfold calculateTemperatureRisk. rewrite Hv, Ht.
  repeat split; intros; num_cases; try reflexivity; exfalso; lra.
Qed.

(** Between the bands a valid temperature reaches the last branch. *)
Lemma temperature_gaps (p : ProcessedPatient) (t : Q) :
  valid (temperature_data p) = true ->
  value (temperature_data p) = Some (Fin t) ->
  (99.5 < t /\ t < 99.6) \/ (100.9 < t /\ t < 101.0) ->
  calculateTemperatureRisk p = 0%nat
  /\ getTemperatureCategory p = T_INVALID.
Proof.
  intros Hv Ht Hgap.
  unfold calculateTemperatureRisk, getTemperatureCategory. rewrite Hv, Ht.
  split; num_cases; try reflexivity; exfalso; lra.
Qed.

(** C3, at the input temperature "100.95": the field is valid with a
    value in [90,110], the patient has fever, and the score is 0 by the
    last branch, the one of invalid data; the category is INVALID. *)
Theorem C3_valid_temperature_between_bands :
  let p := processPatient
             (record (JStr (str "T")) (JNum (Fin 50)) (JStr (str "118/76"))
                     (JStr (str "100.95"))) in
  valid (temperature_data p) = true
  /\ (exists t, value (temperature_data p) = Some (Fin t) /\ t == 100.95
                /\ 90 <= t /\ t <= 110
                /\ ~ t <= 99.5 /\ ~ (99.6 <= t /\ t <= 100.9) /\ ~ 101.0 <= t)
  /\ calculateTemperatureRisk p = 0%nat
  /\ getTemperatureCategory p = T_INVALID
  /\ hasFever p = true
  /\ hasDataQualityIssues p = false.
Proof.
  cbv zeta.
  split; [vm_compute; reflexivity|].
  split.
  - eexists. split; [vm_compute; reflexivity|].
    repeat split; lra.
  - vm_compute. repeat split.
Qed.

(** ** Patient identifiers *)

(** A record whose [patient_id] is falsy leaves no trace in the
    results. *)
Lemma processPatients_loop_results (l : list any) :
  forall i results errors,
    fst (processPatients_loop i l results errors)
    = results ++ List.map processPatient
                   (filter (fun r => truthy (get r "patient_id")) l).
Proof.
  induction l as [|r l IH]; intros i results errors; simpl.
  - rewrite app_nil_r. reflexivity.
  - destruct (truthy (get r "patient_id")); simpl; rewrite IH.
    + rewrite <- app_assoc. reflexivity.
    + reflexivity.
Qed.

Lemma processPatients_filter (l : list any) :
  processPatients l
  = List.map processPatient (filter (fun r => truthy (get r "patient_id")) l).
Proof. unfold processPatients. apply processPatients_loop_results. Qed.

Lemma processPatients_skips_missing_id (l1 l2 : list any) (r : any) :
  get r "patient_id" = JUndefined \/ get r "patient_id" = JNull
  \/ get r "patient_id" = JStr [] ->
  processPatients (l1 ++ r :: l2) = processPatients (l1 ++ l2).
Proof.
  intros H. rewrite !processPatients_filter, !filter_app. simpl.
  destruct H as [-> | [-> | ->]]; reflexivity.
Qed.

(** C4, at the inputs patient_id " A ", 7 and "  ": the record is
    accepted and its id is the raw value, neither trimmed nor turned
    into a string; the blank id is accepted too, and reaches the
    data-quality list and stats.total. *)
Theorem C4_id_is_raw_patient_id :
  let spaced := JStr (str " A ") in
  let blank := JStr (str "  ") in
  List.map id (processPatients [record spaced JNull JNull JNull])
    = [spaced]
  /\ spaced <> JStr (trim (str " A "))
  /\ List.map id (processPatients [record (JNum (Fin 7)) JNull JNull JNull])
     = [JNum (Fin 7)]
  /\ trim (str "  ") = []
  /\ (let (alerts, stats) := pipeline [record blank JNull JNull JNull] in
      data_quality_issues alerts = [blank] /\ total stats = 1%nat).
Proof.
  cbv zeta. repeat split; try (vm_compute; reflexivity).
  vm_compute. discriminate.
Qed.

(** ** Age *)

Lemma processAge_string (s : jsstring) :
  processAge (JStr s)
  = if age_pattern (trim s) then
      let numericAge := parseFloat (trim s) in
      if negb (Num.isNaN numericAge) && Num.gt numericAge (Fin 0)
         && Num.lt numericAge (Fin 150)
      then mkField true (Some (Num.round numericAge)) (JStr s)
      else mkField false None (JStr s)
    else mkField false None (JStr s).
Proof.
  destruct s as [|c s]; [reflexivity|].
  unfold processAge. destruct (age_pattern (trim (c :: s))); reflexivity.
Qed.

Lemma processAge_number (n : number) :
  valid (processAge (JNum n)) = true <->
  exists q, n = Fin q /\ 0 < q /\ q < 150.
Proof.
  unfold processAge. destruct n as [| | |q]; simpl;
    try (split; [discriminate | intros (q & E & _); discriminate]).
  split.
  - intros H. exists q. num_cases; try discriminate. auto.
  - intros (q' & E & H0 & H150). injection E as ->.
    num_cases; try reflexivity; exfalso; lra.
Qed.

Lemma processAge_string_spec (s : jsstring) :
  (valid (processAge (JStr s)) = true <->
   exists a, age_string_form s a /\ 0 < a /\ a < 150)
  /\ (forall a, age_string_form s a ->
        valid (processAge (JStr s)) = true ->
        value (processAge (JStr s))
        = Some (Fin (inject_Z (Qfloor (a + (1 # 2)))))).
Proof.
  unfold age_string_form. rewrite processAge_string.
  destruct (age_pattern (trim s)) eqn:Ep.
  - apply age_pattern_spec in Ep. cbv zeta.
    destruct (parseFloat (trim s)) as [| | |x];
      cbn [Num.isNaN negb andb Num.round Num.gt Num.lt valid value].
    + split; [split; [discriminate | intros (a & (_ & E) & _); discriminate]|].
      intros a (_ & E). discriminate.
    + split; [split; [discriminate | intros (a & (_ & E) & _); discriminate]|].
      intros a (_ & E). discriminate.
    + split; [split; [discriminate | intros (a & (_ & E) & _); discriminate]|].
      intros a (_ & E). discriminate.
    + split.
      * split.
        -- intros H. exists x. split; [auto|].
           num_cases; try discriminate. lra.
        -- intros (a & (_ & E) & H0 & H150). injection E as ->.
           num_cases; try reflexivity; exfalso; lra.
      * intros a (_ & E). injection E as ->.
        match goal with |- context [if ?b then _ else _] => destruct b end;
          [reflexivity | discriminate].
  - split; [split; [discriminate|]|].
    + intros (a & ((ds & fs & Hp) & _) & _).
      assert (K : age_pattern (trim s) = true)
        by (apply age_pattern_spec; eauto).
      congruence.
    + intros a _ H. discriminate.
Qed.

Lemma processAge_invalid_no_value (v : any) :
  valid (processAge v) = false -> value (processAge v) = None.
Proof.
  destruct v as [| | b | n | s | props]; try reflexivity.
  - unfold processAge.
    destruct (negb (Num.isNaN n) && Num.gt n (Fin 0) && Num.lt n (Fin 150));
      [discriminate | reflexivity].
  - rewrite processAge_string.
    destruct (age_pattern (trim s)); [|reflexivity]. cbv zeta.
    match goal with |- context [if ?b then _ else _] => destruct b end;
      [discriminate | reflexivity].
Qed.

Lemma processAge_string_valid_pattern (s : jsstring) :
  valid (processAge (JStr s)) = true ->
  exists ds fs, unsigned_decimal_pattern (trim s) ds fs.
Proof.
  rewrite processAge_string.
  destruct (age_pattern (trim s)) eqn:E; [|discriminate].
  intros _. apply age_pattern_spec. exact E.
Qed.

Lemma round_half_up (a : Q) :
  a - (1 # 2) < inject_Z (Qfloor (a + (1 # 2)))
  /\ inject_Z (Qfloor (a + (1 # 2))) <= a + (1 # 2).
Proof.
  pose proof (Qfloor_le (a + (1 # 2))) as H1.
  pose proof (Qlt_floor (a + (1 # 2))) as H2.
  rewrite inject_Z_plus in H2. change (inject_Z 1) with 1 in H2.
  split; lra.
Qed.

(** C5: the age is valid exactly when it is a number n with 0 < n < 150
    or a string whose trimmed form is an unsigned integer or decimal that
    is read as a number a with 0 < a < 150; from a string the value is a
    rounded to the nearest integer, a number is returned as it is; null,
    undefined, the empty string and a string outside the pattern are
    invalid, and an invalid result has no value. *)
Theorem C5_processAge (v : any) :
  let r := processAge v in
  (valid r = true <->
     (exists n, v = JNum (Fin n) /\ 0 < n /\ n < 150)
     \/ (exists s a, v = JStr s /\ age_string_form s a
                     /\ 0 < a /\ a < 150))
  /\ (forall s a, v = JStr s -> age_string_form s a ->
        0 < a -> a < 150 ->
        exists k : Z, value r = Some (Fin (inject_Z k))
                      /\ a - (1 # 2) < inject_Z k
                      /\ inject_Z k <= a + (1 # 2))
  /\ (forall n, v = JNum n -> valid r = true -> value r = Some n)
  /\ (valid r = false -> value r = None)
  /\ (v = JNull \/ v = JUndefined \/ v = JStr [] -> valid r = false)
  /\ (forall s, v = JStr s ->
        (forall ds fs, ~ unsigned_decimal_pattern (trim s) ds fs) ->
        valid r = false).
Proof.
  cbv zeta. split; [|split; [|split; [|split; [|split]]]].
  - split.
    + intros H. destruct v as [| | b | n | s | props];
        try (simpl in H; discriminate).
      * left. apply processAge_number in H. destruct H as (q & -> & H).
        exists q. tauto.
      * right. apply (processAge_string_spec s) in H.
        destruct H as (a & H). exists s, a. tauto.
    + intros [(n & -> & H) | (s & a & -> & H)].
      * apply processAge_number. exists n. tauto.
      * apply (processAge_string_spec s). exists a. exact H.
  - intros s a -> Hf H0 H150.
    exists (Qfloor (a + (1 # 2))). split; [|apply round_half_up].
    apply (processAge_string_spec s); [exact Hf|].
    apply (processAge_string_spec s). exists a. auto.
  - intros n ->. unfold processAge.
    destruct (negb (Num.isNaN n) && Num.gt n (Fin 0) && Num.lt n (Fin 150));
      [reflexivity | discriminate].
  - apply processAge_invalid_no_value.
  - intros [-> | [-> | ->]]; reflexivity.
  - intros s -> Hno.
    destruct (valid (processAge (JStr s))) eqn:E; [|reflexivity].
    destruct (processAge_string_valid_pattern s E) as (ds & fs & Hp).
    exfalso. exact (Hno ds fs Hp).
Qed.

Lemma C5_processAge_witness :
  age_string_form (str " 66.5 ") 66.5
  /\ exists k : Z,
       value (processAge (JStr (str " 66.5 "))) = Some (Fin (inject_Z k))
       /\ 66.5 - (1 # 2) < inject_Z k /\ inject_Z k <= 66.5 + (1 # 2).
Proof.
  assert (Hu : age_string_form (str " 66.5 ") 66.5).
  { split; [|reflexivity].
    exists (str "66"), (str "5").
    repeat split; try discriminate. right. split; [discriminate|].
    reflexivity. }
  split; [exact Hu|].
  refine (proj1 (proj2 (C5_processAge (JStr (str " 66.5 "))))
            (str " 66.5 ") 66.5 eq_refl Hu _ _); lra.
Defined.

(** The value rounds half up: the age "66.5" is 67. *)
Lemma processAge_rounds_half_up :
  value (processAge (JStr (str " 66.5 "))) = Some (Fin 67).
Proof. vm_compute. reflexivity. Qed.

(** ** Blood pressure *)

Lemma isNaN_false (n : number) : Num.isNaN n = false <-> n <> NaN.
Proof. destruct n; simpl; split; congruence. Qed.

Lemma parseNumericValue_string (x : jsstring) (n : number) :
  parseNumericValue (JStr x) = Some n <-> parseable (trim x) n.
Proof.
  unfold parseNumericValue, parseable.
  destruct (trim x) as [|c t] eqn:E; simpl is_empty; cbv iota.
  - split; [discriminate|]. intros [<- H]. exfalso. apply H. reflexivity.
  - destruct (Num.isNaN (parseFloat (c :: t))) eqn:En.
    + split; [discriminate|]. intros [<- H].
      apply isNaN_false in H. congruence.
    + apply isNaN_false in En. split.
      * intros H. injection H as <-. auto.
      * intros [<- _]. reflexivity.
Qed.

Lemma parseNumericValue_coercible (v : any) (n : number) :
  parseNumericValue v = Some n <-> numeric_coercible v n.
Proof.
  unfold numeric_coercible. destruct v as [| | b | m | s | props];
    try (simpl; split;
         [discriminate
         | intros [[E _] | (s' & E & _)]; discriminate]).
  - simpl. destruct (Num.isNaN m) eqn:En.
    + split; [discriminate|].
      intros [[E H] | (s' & E & _)]; [|discriminate].
      injection E as ->. apply isNaN_false in H. congruence.
    + apply isNaN_false in En. split.
      * intros H. injection H as <-. left. auto.
      * intros [[E _] | (s' & E & _)]; [|discriminate].
        injection E as ->. reflexivity.
  - rewrite parseNumericValue_string. split.
    + intros H. right. exists s. auto.
    + intros [[E _] | (s' & E & H)]; [discriminate|].
      injection E as ->. exact H.
Qed.

Lemma systolic_range (n : number) :
  isValidBloodPressureValue n true = true <-> in_range 70 300 n.
Proof.
  unfold isValidBloodPressureValue, in_range.
  destruct n as [| | |q]; simpl;
    try (split; [discriminate | intros (q & E & _); discriminate]).
  split.
  - intros H. exists q. num_cases; try discriminate. auto.
  - intros (q' & E & H1 & H2). injection E as ->.
    num_cases; try reflexivity; exfalso; lra.
Qed.

Lemma diastolic_range (n : number) :
  isValidBloodPressureValue n false = true <-> in_range 40 200 n.
Proof.
  unfold isValidBloodPressureValue, in_range.
  destruct n as [| | |q]; simpl;
    try (split; [discriminate | intros (q & E & _); discriminate]).
  split.
  - intros H. exists q. num_cases; try discriminate. auto.
  - intros (q' & E & H1 & H2). injection E as ->.
    num_cases; try reflexivity; exfalso; lra.
Qed.

Lemma pair_result_spec (a b : option number) (bp : any) (sys dia : number) :
  bp_valid (pair_result a b bp) = true
  /\ systolic (pair_result a b bp) = Some sys
  /\ diastolic (pair_result a b bp) = Some dia
  <-> a = Some sys /\ b = Some dia
      /\ in_range 70 300 sys /\ in_range 40 200 dia.
Proof.
  unfold pair_result, checked_pair.
  destruct a as [s|], b as [d|]; cbn [bp_valid systolic diastolic];
    try (split; [intros (H & _); discriminate
                | intros (H1 & H2 & _); discriminate]).
  rewrite <- systolic_range, <- diastolic_range.
  destruct (isValidBloodPressureValue s true) eqn:Es;
    destruct (isValidBloodPressureValue d false) eqn:Ed;
    cbn [andb bp_valid systolic diastolic].
  - split.
    + intros (_ & H1 & H2). injection H1 as <-. injection H2 as <-. auto.
    + intros (H1 & H2 & _). injection H1 as <-. injection H2 as <-. auto.
  - split; [intros (H & _); discriminate|].
    intros (H1 & H2 & _ & H). injection H2 as <-. congruence.
  - split; [intros (H & _); discriminate|].
    intros (H1 & H2 & H & _). injection H1 as <-. congruence.
  - split; [intros (H & _); discriminate|].
    intros (H1 & H2 & H & _). injection H1 as <-. congruence.
Qed.

Lemma pair_result_values (a b : option number) (bp : any) :
  bp_valid (pair_result a b bp) = true ->
  exists sys dia, systolic (pair_result a b bp) = Some sys
                  /\ diastolic (pair_result a b bp) = Some dia.
Proof.
  unfold pair_result, checked_pair.
  destruct a as [s|], b as [d|]; cbn [bp_valid]; try discriminate.
  destruct (isValidBloodPressureValue s true
            && isValidBloodPressureValue d false);
    cbn [bp_valid systolic diastolic]; [eauto | discriminate].
Qed.

Lemma processBloodPressure_string (s : jsstring) :
  processBloodPressure (JStr s)
  = let result := mkBP false None None (JStr s) in
    let trimmedBp := trim s in
    if includes (toLowerCase trimmedBp) (str "invalid")
       || includes (toLowerCase trimmedBp) (str "n/a")
       || includes (toLowerCase trimmedBp) (str "error")
    then result
    else if includes trimmedBp [slash] then
      match split slash trimmedBp with
      | [p0; p1] =>
          if is_empty (trim p0) || is_empty (trim p1) then result
          else pair_result (parseNumericValue (JStr (trim p0)))
                           (parseNumericValue (JStr (trim p1))) (JStr s)
      | _ => result
      end
    else result.
Proof. destruct s as [|c s]; reflexivity. Qed.

Lemma processBloodPressure_object (props : list (string * any)) :
  processBloodPressure (JObj props)
  = pair_result (parseNumericValue (get (JObj props) "systolic"))
                (parseNumericValue (get (JObj props) "diastolic"))
                (JObj props).
Proof. reflexivity. Qed.

Lemma bp_markers (s : jsstring) :
  includes (toLowerCase (trim s)) (str "invalid")
  || includes (toLowerCase (trim s)) (str "n/a")
  || includes (toLowerCase (trim s)) (str "error") = false
  <-> ~ contains_ci s (str "invalid") /\ ~ contains_ci s (str "n/a")
      /\ ~ contains_ci s (str "error").
Proof.
  rewrite !orb_false_iff.
  rewrite (@includes_ci s (str "invalid") 105%N 100%N
             (str "nvalid") (str "invali")) by reflexivity.
  rewrite (@includes_ci s (str "n/a") 110%N 97%N (str "/a") (str "n/"))
    by reflexivity.
  rewrite (@includes_ci s (str "error") 101%N 114%N
             (str "rror") (str "erro")) by reflexivity.
  tauto.
Qed.

Lemma processBloodPressure_string_spec (s : jsstring) (sys dia : number) :
  let r := processBloodPressure (JStr s) in
  bp_valid r = true /\ systolic r = Some sys /\ diastolic r = Some dia
  <-> bp_string_form s sys dia
      /\ in_range 70 300 sys /\ in_range 40 200 dia.
Proof.
  cbv zeta. rewrite processBloodPressure_string. cbv zeta.
  unfold bp_string_form.
  destruct (includes (toLowerCase (trim s)) (str "invalid")
            || includes (toLowerCase (trim s)) (str "n/a")
            || includes (toLowerCase (trim s)) (str "error")) eqn:Em.
  - split; [intros (H & _); discriminate|].
    intros ((H1 & H2 & H3 & _) & _).
    assert (K : true = false) by (rewrite <- Em; apply bp_markers; auto).
    discriminate.
  - apply bp_markers in Em. destruct Em as (M1 & M2 & M3).
    destruct (split slash (trim s)) as [|p0 [|p1 [|p2 ps]]] eqn:Es.
    + destruct (includes (trim s) [slash]);
        (split; [intros (H & _); discriminate|]);
        intros ((_ & _ & _ & l & r & E & Hl & Hr & _) & _);
        assert (K : split slash (trim s) = [l; r])
          by (apply split_pair; auto); congruence.
    + destruct (includes (trim s) [slash]);
        (split; [intros (H & _); discriminate|]);
        intros ((_ & _ & _ & l & r & E & Hl & Hr & _) & _);
        assert (K : split slash (trim s) = [l; r])
          by (apply split_pair; auto); congruence.
    + rewrite (split_pair_includes _ _ Es).
      pose proof (proj1 (split_pair _ _ _ _) Es) as (E & Hl & Hr).
      destruct (is_empty (trim p0)) eqn:E0; simpl orb; cbv iota.
      { split; [intros (H & _); discriminate|].
        intros ((_ & _ & _ & l & r & E' & Hl' & Hr' & Hne & _) & _).
        assert (K : split slash (trim s) = [l; r])
          by (apply split_pair; auto).
        rewrite Es in K. injection K as <- <-.
        apply is_empty_true in E0. contradiction. }
      destruct (is_empty (trim p1)) eqn:E1; cbv iota.
      { split; [intros (H & _); discriminate|].
        intros ((_ & _ & _ & l & r & E' & Hl' & Hr' & _ & Hne & _) & _).
        assert (K : split slash (trim s) = [l; r])
          by (apply split_pair; auto).
        rewrite Es in K. injection K as <- <-.
        apply is_empty_true in E1. contradiction. }
      apply is_empty_false in E0. apply is_empty_false in E1.
      rewrite pair_result_spec, !parseNumericValue_string, !trim_idem.
      split.
      * intros (P0 & P1 & R0 & R1). repeat split; auto.
        exists p0, p1. repeat split; auto; apply P0 || apply P1.
      * intros ((_ & _ & _ & l & r & E' & Hl' & Hr' & _ & _ & P0 & P1)
                & R0 & R1).
        assert (K : split slash (trim s) = [l; r])
          by (apply split_pair; auto).
        rewrite Es in K. injection K as <- <-. auto.
    + destruct (includes (trim s) [slash]);
        (split; [intros (H & _); discriminate|]);
        intros ((_ & _ & _ & l & r & E & Hl & Hr & _) & _);
        assert (K : split slash (trim s) = [l; r])
          by (apply split_pair; auto); congruence.
Qed.

Lemma processBloodPressure_object_spec
    (props : list (string * any)) (sys dia : number) :
  let r := processBloodPressure (JObj props) in
  bp_valid r = true /\ systolic r = Some sys /\ diastolic r = Some dia
  <-> bp_object_form (JObj props) sys dia
      /\ in_range 70 300 sys /\ in_range 40 200 dia.
Proof.
  cbv zeta. rewrite processBloodPressure_object, pair_result_spec.
  rewrite !parseNumericValue_coercible. unfold bp_object_form.
  split.
  - intros (H1 & H2 & H3 & H4). repeat split; eauto.
  - intros ((_ & H1 & H2) & H3 & H4). auto.
Qed.

Lemma processBloodPressure_form (v : any) (sys dia : number) :
  let r := processBloodPressure v in
  bp_valid r = true /\ systolic r = Some sys /\ diastolic r = Some dia
  <-> bp_form v sys dia /\ in_range 70 300 sys /\ in_range 40 200 dia.
Proof.
  cbv zeta. unfold bp_form.
  destruct v as [| | b | n | s | props];
    try (split;
         [ intros (H & _); discriminate
         | intros ([(s & E & _) | ((props & E) & _)] & _); discriminate ]).
  - rewrite (processBloodPressure_string_spec s sys dia). split.
    + intros (H & R). split; [|exact R]. left. exists s. auto.
    + intros ([(s' & E & H) | ((props & E) & _)] & R); [|discriminate].
      injection E as <-. auto.
  - rewrite (processBloodPressure_object_spec props sys dia). split.
    + intros (H & R). split; [|exact R]. right. exact H.
    + intros ([(s' & E & _) | H] & R); [discriminate | auto].
Qed.

Lemma processBloodPressure_values (v : any) :
  bp_valid (processBloodPressure v) = true ->
  exists sys dia, systolic (processBloodPressure v) = Some sys
                  /\ diastolic (processBloodPressure v) = Some dia.
Proof.
  destruct v as [| | b | n | s | props]; try discriminate.
  - rewrite processBloodPressure_string. cbv zeta.
    repeat match goal with
    | |- context [if ?b then _ else _] => destruct b
    | |- context [match ?l with [] => _ | _ :: _ => _ end] => destruct l
    end; try discriminate.
    apply pair_result_values.
  - rewrite processBloodPressure_object. apply pair_result_values.
Qed.

Lemma numeric_coercible_functional (v : any) (n m : number) :
  numeric_coercible v n -> numeric_coercible v m -> n = m.
Proof.
  intros Hn Hm. apply parseNumericValue_coercible in Hn, Hm. congruence.
Qed.

Lemma bp_form_functional (v : any) (sys dia sys' dia' : number) :
  bp_form v sys dia -> bp_form v sys' dia' -> sys = sys' /\ dia = dia'.
Proof.
  intros [(s & E & _ & _ & _ & l & r & Et & Hl & Hr & _ & _ & Ps & Pd)
         | ((props & E) & Cs & Cd)]
         [(s' & E' & _ & _ & _ & l' & r' & Et' & Hl' & Hr' & _ & _ & Ps' & Pd')
         | ((props' & E') & Cs' & Cd')];
    try congruence.
  - rewrite E in E'. injection E' as <-.
    assert (K : split slash (trim s) = [l; r]) by (apply split_pair; auto).
    assert (K' : split slash (trim s) = [l'; r']) by (apply split_pair; auto).
    rewrite K in K'. injection K' as <- <-.
    destruct Ps, Pd, Ps', Pd'. split; congruence.
  - split; eapply numeric_coercible_functional; eassumption.
Qed.

Lemma no_slash_no_form (s : jsstring) (sys dia : number) :
  ~ In slash s -> ~ bp_string_form s sys dia.
Proof.
  intros Hn (_ & _ & _ & l & r & E & _). apply Hn.
  destruct (trim_decomposition s) as (w1 & w2 & Es & _).
  rewrite Es, E. apply in_or_app. right. apply in_or_app. left.
  apply in_or_app. right. left. reflexivity.
Qed.

(** C6: the blood pressure is valid exactly when the input is a string
    without the markers "invalid", "n/a", "error" (in any case) made of
    two non-blank parts around its only slash, both read as numbers, or
    an object whose systolic and diastolic fields are numbers or strings
    read as numbers, and the systolic value lies in [70,300] and the
    diastolic value in [40,200]; the result then carries these two
    values.  A bare number and a string without a slash are invalid, and
    so is a reading with one component out of range. *)
Theorem C6_processBloodPressure (v : any) :
  let r := processBloodPressure v in
  (bp_valid r = true <->
     exists sys dia, bp_form v sys dia
                     /\ in_range 70 300 sys /\ in_range 40 200 dia)
  /\ (forall sys dia,
        bp_valid r = true /\ systolic r = Some sys /\ diastolic r = Some dia
        <-> bp_form v sys dia /\ in_range 70 300 sys /\ in_range 40 200 dia)
  /\ (forall n, v = JNum n -> bp_valid r = false)
  /\ (forall s, v = JStr s -> ~ In slash s -> bp_valid r = false)
  /\ (forall sys dia, bp_form v sys dia ->
        ~ (in_range 70 300 sys /\ in_range 40 200 dia) ->
        bp_valid r = false).
Proof.
  cbv zeta.
  assert (Hiff : bp_valid (processBloodPressure v) = true <->
                 exists sys dia, bp_form v sys dia
                   /\ in_range 70 300 sys /\ in_range 40 200 dia).
  { split.
    - intros H. destruct (processBloodPressure_values v H)
        as (sys & dia & Hs & Hd).
      exists sys, dia. apply processBloodPressure_form. auto.
    - intros (sys & dia & H). apply processBloodPressure_form in H. tauto. }
  split; [exact Hiff|]. split; [|split; [|split]].
  - intros sys dia. apply processBloodPressure_form.
  - intros n ->. reflexivity.
  - intros s -> Hn.
    destruct (bp_valid (processBloodPressure (JStr s))) eqn:E; [|reflexivity].
    destruct (proj1 Hiff eq_refl)
      as (sys & dia & [(s' & E' & F) | ((p & E') & _)] & _).
    + injection E' as <-. exfalso. exact (no_slash_no_form Hn F).
    + discriminate.
  - intros sys dia F Hr.
    destruct (bp_valid (processBloodPressure v)) eqn:E; [|reflexivity].
    destruct (proj1 Hiff eq_refl) as (sys' & dia' & F' & R).
    destruct (bp_form_functional F F') as [-> ->]. contradiction.
Qed.

Lemma C6_processBloodPressure_witness :
  let v := JStr (str " 69 / 80 ") in
  bp_form v (Fin 69) (Fin 80)
  /\ ~ (in_range 70 300 (Fin 69) /\ in_range 40 200 (Fin 80))
  /\ bp_valid (processBloodPressure v) = false.
Proof.
  cbv zeta.
  assert (F : bp_form (JStr (str " 69 / 80 ")) (Fin 69) (Fin 80)).
  { left. exists (str " 69 / 80 "). split; [reflexivity|].
    assert (M : forall pat, includes (toLowerCase (str " 69 / 80 ")) pat
                            = false -> ~ contains_ci (str " 69 / 80 ") pat).
    { intros pat Hi Hc. apply includes_spec in Hc. congruence. }
    split; [apply M; reflexivity|]. split; [apply M; reflexivity|].
    split; [apply M; reflexivity|].
    exists (str "69 "), (str " 80").
    split; [reflexivity|].
    split; [simpl; intros [H|[H|[H|[]]]]; discriminate|].
    split; [simpl; intros [H|[H|[H|[]]]]; discriminate|].
    split; [discriminate|]. split; [discriminate|].
    split; (split; [vm_compute; reflexivity | discriminate]). }
  assert (R : ~ (in_range 70 300 (Fin 69) /\ in_range 40 200 (Fin 80))).
  { intros [(q & E & H & _) _]. injection E as <-. lra. }
  refine (conj F (conj R _)).
  exact (proj2 (proj2 (proj2 (proj2
           (C6_processBloodPressure (JStr (str " 69 / 80 ")))))) _ _ F R).
Defined.

(** The readings of the specification's examples. *)
Lemma processBloodPressure_examples :
  List.map (fun s => bp_valid (processBloodPressure (JStr (str s))))
           ["120/80"; "150/"; "/90"; "invalid"; "N/A"; "250/"; "69/80";
            "120"; "120/80/70"]%string
  = [true; false; false; false; false; false; false; false; false]
  /\ bp_valid (processBloodPressure (JNum (Fin 120))) = false
  /\ bp_valid (processBloodPressure
                 (JObj [("systolic"%string, JNum (Fin 120));
                        ("diastolic"%string, JStr (str "80"))])) = true.
Proof. vm_compute. repeat split. Qed.

(** ** Scores *)

Lemma stage_score_le_4 (st : BloodPressureStage) : (stage_score st <= 4)%nat.
Proof. destruct st; simpl; lia. Qed.

Lemma calculateBloodPressureRisk_le_4 (p : ProcessedPatient) :
  (calculateBloodPressureRisk p <= 4)%nat.
Proof.
  unfold calculateBloodPressureRisk.
  destruct (bp_valid (blood_pressure_data p));
    destruct (systolic (blood_pressure_data p));
    destruct (diastolic (blood_pressure_data p));
    try lia; apply stage_score_le_4.
Qed.

Lemma calculateTemperatureRisk_le_2 (p : ProcessedPatient) :
  (calculateTemperatureRisk p <= 2)%nat.
Proof.
  unfold calculateTemperatureRisk.
  destruct (valid (temperature_data p));
    destruct (value (temperature_data p)); try lia.
  repeat match goal with |- context [if ?b then _ else _] => destruct b end;
    lia.
Qed.

Lemma calculateAgeRisk_le_2 (p : ProcessedPatient) :
  (calculateAgeRisk p <= 2)%nat.
Proof.
  unfold calculateAgeRisk.
  destruct (valid (age_data p)); destruct (value (age_data p)); try lia.
  repeat match goal with |- context [if ?b then _ else _] => destruct b end;
    lia.
Qed.

(** C7: a dimension whose field is not valid scores 0; the total is the
    sum of the three scores and lies between 0 and 8. *)
Theorem C7_total_risk (p : ProcessedPatient) :
  (bp_valid (blood_pressure_data p) = false ->
   calculateBloodPressureRisk p = 0%nat)
  /\ (valid (temperature_data p) = false ->
      calculateTemperatureRisk p = 0%nat)
  /\ (valid (age_data p) = false -> calculateAgeRisk p = 0%nat)
  /\ calculateTotalRisk p
     = (calculateBloodPressureRisk p + calculateTemperatureRisk p
        + calculateAgeRisk p)%nat
  /\ (0 <= calculateTotalRisk p <= 8)%nat.
Proof.
  repeat split.
  - unfold calculateBloodPressureRisk. intros ->. reflexivity.
  - unfold calculateTemperatureRisk. intros ->. reflexivity.
  - unfold calculateAgeRisk. intros ->. reflexivity.
  - lia.
  - unfold calculateTotalRisk.
    pose proof (calculateBloodPressureRisk_le_4 p).
    pose proof (calculateTemperatureRisk_le_2 p).
    pose proof (calculateAgeRisk_le_2 p). lia.
Qed.

Lemma C7_total_risk_witness :
  let p := processPatient (record (JStr (str "C")) JNull
                                  (JStr (str "invalid")) (JNum (Fin 101.8))) in
  bp_valid (blood_pressure_data p) = false
  /\ valid (age_data p) = false
  /\ calculateBloodPressureRisk p = 0%nat
  /\ calculateAgeRisk p = 0%nat
  /\ (0 <= calculateTotalRisk p <= 8)%nat.
Proof.
  cbv zeta.
  set (p := processPatient _).
  assert (Hb : bp_valid (blood_pressure_data p) = false) by reflexivity.
  assert (Ha : valid (age_data p) = false) by reflexivity.
  refine (conj Hb (conj Ha (conj _ (conj _ _)))).
  - exact (proj1 (C7_total_risk p) Hb).
  - exact (proj1 (proj2 (proj2 (C7_total_risk p))) Ha).
  - exact (proj2 (proj2 (proj2 (proj2 (C7_total_risk p))))).
Defined.

(** The bound 8 is reached. *)
Lemma total_risk_8_reached :
  calculateTotalRisk
    (processPatient (record (JStr (str "H")) (JNum (Fin 70))
                            (JStr (str "150/95")) (JNum (Fin 102))))
  = 8%nat.
Proof. vm_compute. reflexivity. Qed.

(** ** Fever *)

Lemma ge_at_least (t : number) (q : Q) :
  Num.ge t (Fin q) = true <-> at_least t q.
Proof.
  destruct t; simpl; try (split; [discriminate | contradiction]).
  - split; auto.
  - apply Qle_bool_iff.
Qed.

(** C8: a patient has fever exactly when the temperature field is valid
    and its value is at least 99.6; the answer depends on the temperature
    field alone, and a valid temperature of 101 or more is a fever. *)
Theorem C8_hasFever (p : ProcessedPatient) :
  (hasFever p = true <->
   valid (temperature_data p) = true
   /\ exists t, value (temperature_data p) = Some t /\ at_least t 99.6)
  /\ (forall p', temperature_data p' = temperature_data p ->
                 hasFever p' = hasFever p)
  /\ (forall t, valid (temperature_data p) = true ->
                value (temperature_data p) = Some t -> at_least t 101 ->
                hasFever p = true /\ calculateTemperatureRisk p = 2%nat).
Proof.
  unfold hasFever. repeat split.
  - apply andb_true_iff in H. tauto.
  - apply andb_true_iff in H. destruct H as [_ H].
    destruct (value (temperature_data p)) as [t|]; [|discriminate].
    exists t. split; [reflexivity|]. apply ge_at_least. exact H.
  - intros [Hv (t & Ht & Hge)]. rewrite Hv, Ht. simpl.
    apply ge_at_least. exact Hge.
  - intros p' ->. reflexivity.
  - rewrite H, H0. simpl. apply ge_at_least.
    destruct t; simpl in *; try contradiction; auto. lra.
  - unfold calculateTemperatureRisk. rewrite H, H0.
    destruct t; simpl in *; try contradiction; auto.
    num_cases; try reflexivity; exfalso; lra.
Qed.

Lemma C8_hasFever_witness :
  let p := temp_patient true (Some (Fin 101.8)) in
  valid (temperature_data p) = true
  /\ value (temperature_data p) = Some (Fin 101.8)
  /\ at_least (Fin 101.8) 101
  /\ hasFever p = true /\ calculateTemperatureRisk p = 2%nat.
Proof.
  cbv zeta.
  set (p := temp_patient _ _).
  assert (Hv : valid (temperature_data p) = true) by reflexivity.
  assert (Ht : value (temperature_data p) = Some (Fin 101.8)) by reflexivity.
  assert (Hge : at_least (Fin 101.8) 101) by (simpl; lra).
  refine (conj Hv (conj Ht (conj Hge _))).
  exact (proj2 (proj2 (C8_hasFever p)) _ Hv Ht Hge).
Defined.

(** ** Statistics *)

Lemma stats_fold (ps : list ProcessedPatient) :
  forall st,
    let st' := fold_left stats_step ps st in
    total st' = total st
    /\ fullyValid st'
       = (fullyValid st
          + List.length (filter (fun p => negb (hasDataQualityIssues p)) ps))%nat
    /\ dataQualityIssues st'
       = (dataQualityIssues st
          + List.length (filter hasDataQualityIssues ps))%nat.
Proof.
  induction ps as [|p ps IH]; intros st; simpl.
  - repeat split; lia.
  - destruct (IH (stats_step st p)) as (Ht & Hf & Hd).
    rewrite Ht, Hf, Hd. unfold stats_step, hasDataQualityIssues. simpl.
    destruct (valid (age_data p)), (bp_valid (blood_pressure_data p)),
      (valid (temperature_data p)); simpl; repeat split; lia.
Qed.

Lemma filter_partition_length (A : Type) (f : A -> bool) (l : list A) :
  (List.length (filter (fun x => negb (f x)) l) + List.length (filter f l)
   = List.length l)%nat.
Proof.
  induction l as [|x l IH]; simpl; [reflexivity|].
  destruct (f x); simpl; lia.
Qed.

(** C9: every patient is counted either as fully valid or as having a
    data-quality issue, so the two counts add up to the total; the
    patients counted as having an issue are those for which
    [hasDataQualityIssues] holds, that is, those with an invalid age,
    blood pressure or temperature. *)
Theorem C9_stats_partition (ps : list ProcessedPatient) :
  let stats := getProcessingStats ps in
  (fullyValid stats + dataQualityIssues stats = total stats)%nat
  /\ total stats = List.length ps
  /\ dataQualityIssues stats = List.length (filter hasDataQualityIssues ps)
  /\ fullyValid stats
     = List.length (filter (fun p => negb (hasDataQualityIssues p)) ps)
  /\ (forall p, hasDataQualityIssues p = true <->
        valid (age_data p) = false
        \/ bp_valid (blood_pressure_data p) = false
        \/ valid (temperature_data p) = false).
Proof.
  cbv zeta. unfold getProcessingStats.
  destruct (stats_fold ps (mkStats (List.length ps) 0 0 0 0 0))
    as (Ht & Hf & Hd).
  simpl in Ht, Hf, Hd. rewrite Ht, Hf, Hd.
  repeat split.
  - apply filter_partition_length.
  - unfold hasDataQualityIssues.
    destruct (valid (age_data p)), (bp_valid (blood_pressure_data p)),
      (valid (temperature_data p)); simpl; intros; auto; discriminate.
  - unfold hasDataQualityIssues.
    destruct (valid (age_data p)), (bp_valid (blood_pressure_data p)),
      (valid (temperature_data p)); simpl; intros [H|[H|H]];
      auto; discriminate.
Qed.

Lemma C9_stats_partition_witness :
  let p := processPatient (record (JStr (str "C")) JNull
                                  (JStr (str "invalid")) (JNum (Fin 101.8))) in
  valid (age_data p) = false /\ hasDataQualityIssues p = true.
Proof.
  cbv zeta.
  set (p := processPatient _).
  assert (Ha : valid (age_data p) = false) by reflexivity.
  refine (conj Ha _).
  exact (proj2 (proj2 (proj2 (proj2 (proj2 (C9_stats_partition [p])))) p)
           (or_introl Ha)).
Defined.

(** ** Prefix parsing *)

Lemma unsigned_decimal_pattern_last (t ds fs : jsstring) :
  unsigned_decimal_pattern t ds fs ->
  exists pre c, t = pre ++ [c] /\ is_digit c = true.
Proof.
  intros (Hne & Hds & Hfs & [[-> ->] | [Hfne ->]]).
  - destruct (exists_last Hne) as (pre & c & ->).
    exists pre, c. split; [reflexivity|].
    rewrite forallb_app in Hds. simpl in Hds.
    apply andb_true_iff in Hds. destruct Hds as [_ Hds].
    apply andb_true_iff in Hds. tauto.
  - destruct (exists_last Hfne) as (pre & c & ->).
    exists (ds ++ dot :: pre), c. split.
    + rewrite <- app_assoc. reflexivity.
    + rewrite forallb_app in Hfs. simpl in Hfs.
      apply andb_true_iff in Hfs. destruct Hfs as [_ Hfs].
      apply andb_true_iff in Hfs. tauto.
Qed.

(** C10: the temperature "98.6abc" is accepted with value 98.6, the
    number being read from the prefix; each side of the blood pressure
    "120abc/80xyz" is read the same way; an age string whose trimmed
    form ends in a character that is not a digit is rejected. *)
Theorem C10_prefix_parsing :
  (exists x, parseFloat (str "98.6abc") = Fin x /\ x == 98.6)
  /\ (let r := processTemperature (JStr (str "98.6abc")) in
      valid r = true /\ exists x, value r = Some (Fin x) /\ x == 98.6)
  /\ (let r := processBloodPressure (JStr (str "120abc/80xyz")) in
      bp_valid r = true
      /\ (exists x, systolic r = Some (Fin x) /\ x == 120)
      /\ (exists x, diastolic r = Some (Fin x) /\ x == 80))
  /\ valid (processAge (JStr (str "98.6abc"))) = false
  /\ (forall s pre c, trim s = pre ++ [c] -> is_digit c = false ->
        valid (processAge (JStr s)) = false).
Proof.
  split; [|split; [|split; [|split]]].
  - eexists. split; [vm_compute; reflexivity | lra].
  - cbv zeta. split; [vm_compute; reflexivity|].
    eexists. split; [vm_compute; reflexivity | lra].
  - cbv zeta. split; [vm_compute; reflexivity|]. split.
    + eexists. split; [vm_compute; reflexivity | lra].
    + eexists. split; [vm_compute; reflexivity | lra].
  - vm_compute. reflexivity.
  - intros s pre c Ht Hc.
    destruct (valid (processAge (JStr s))) eqn:E; [|reflexivity].
    destruct (processAge_string_valid_pattern s E) as (ds & fs & Hp).
    destruct (unsigned_decimal_pattern_last Hp) as (pre' & c' & Et & Hc').
    rewrite Ht in Et. apply app_inj_tail in Et. destruct Et as [_ ->].
    congruence.
Qed.

Lemma C10_prefix_parsing_witness :
  trim (str "45abc") = str "45ab" ++ [99%N] /\ is_digit 99 = false
  /\ valid (processAge (JStr (str "45abc"))) = false.
Proof.
  assert (Ht : trim (str "45abc") = str "45ab" ++ [99%N]) by reflexivity.
  assert (Hc : is_digit 99 = false) by reflexivity.
  refine (conj Ht (conj Hc _)).
  exact (proj2 (proj2 (proj2 (proj2 C10_prefix_parsing))) _ _ _ Ht Hc).
Defined.

(** * Further properties *)

(** ** Scores, categories and alerts of one patient *)

(** X1: for a valid finite age the score is 1 up to 65 (the bands under
    40 and 40 to 65 score the same) and 2 above 65; it is never 0. *)
Theorem X1_age_bands (p : ProcessedPatient) (a : Q) :
  valid (age_data p) = true ->
  value (age_data p) = Some (Fin a) ->
  (a <= 65 -> calculateAgeRisk p = 1%nat)
  /\ (65 < a -> calculateAgeRisk p = 2%nat)
  /\ calculateAgeRisk p <> 0%nat.
Proof.
  intros Hv Ha. unfold calculateAgeRisk. rewrite Hv, Ha.
  repeat split; intros; num_cases; try reflexivity; try discriminate;
    exfalso; lra.
Qed.

Lemma X1_age_bands_witness :
  let p := age_patient true (Some (Fin 65)) in
  valid (age_data p) = true /\ value (age_data p) = Some (Fin 65)
  /\ calculateAgeRisk p = 1%nat.
Proof.
  cbv zeta. set (p := age_patient _ _).
  assert (Hv : valid (age_data p) = true) by reflexivity.
  assert (Ha : value (age_data p) = Some (Fin 65)) by reflexivity.
  refine (conj Hv (conj Ha _)).
  apply (proj1 (X1_age_bands p Hv Ha)). lra.
Defined.

(** X2: the category functions agree with the score functions on every
    patient: the score is the one of the category's branch, for blood
    pressure, temperature and age. *)
Theorem X2_category_matches_score (p : ProcessedPatient) :
  stage_score (getBloodPressureCategory p) = calculateBloodPressureRisk p
  /\ temperature_category_score (getTemperatureCategory p)
     = calculateTemperatureRisk p
  /\ age_category_score (getAgeCategory p) = calculateAgeRisk p.
Proof.
  repeat split.
  - unfold getBloodPressureCategory, calculateBloodPressureRisk, finalStage.
    destruct (bp_valid (blood_pressure_data p)); [|reflexivity].
    destruct (systolic (blood_pressure_data p)) as [s|]; [|reflexivity].
    destruct (diastolic (blood_pressure_data p)) as [d|]; [|reflexivity].
    (* the two chains, written apart, test the same conditions in the
       same order *)
    cbv zeta.
    repeat match goal with
           | |- context [if ?b then _ else _] => destruct b
           end; reflexivity.
  - unfold getTemperatureCategory, calculateTemperatureRisk.
    destruct (valid (temperature_data p));
      destruct (value (temperature_data p)); try reflexivity.
    repeat match goal with
           | |- context [if ?b then _ else _] => destruct b
           end; reflexivity.
  - unfold getAgeCategory, calculateAgeRisk.
    destruct (valid (age_data p)); destruct (value (age_data p));
      try reflexivity.
    repeat match goal with
           | |- context [if ?b then _ else _] => destruct b
           end; reflexivity.
Qed.

Lemma temperature_score_fever (p : ProcessedPatient) :
  (1 <= calculateTemperatureRisk p)%nat -> hasFever p = true.
Proof.
  unfold calculateTemperatureRisk, hasFever.
  destruct (valid (temperature_data p)); [|simpl; lia].
  destruct (value (temperature_data p)) as [t|]; [|simpl; lia].
  destruct t as [| | |q]; simpl; try lia; try reflexivity.
  num_cases; try lia; try reflexivity; intros _; exfalso; lra.
Qed.

(** X3: a patient whose temperature score is 1 or 2 has fever, and a
    patient without fever scores 0 for temperature; a patient with fever
    and a finite temperature scores 0 only between 100.9 and 101. *)
Theorem X3_fever_and_temperature_score (p : ProcessedPatient) :
  ((1 <= calculateTemperatureRisk p)%nat -> hasFever p = true)
  /\ (hasFever p = false -> calculateTemperatureRisk p = 0%nat)
  /\ (forall t, hasFever p = true ->
        value (temperature_data p) = Some (Fin t) ->
        calculateTemperatureRisk p = 0%nat -> 100.9 < t /\ t < 101).
Proof.
  split; [apply temperature_score_fever|]. split.
  - intros Hf. pose proof (temperature_score_fever p) as H.
    destruct (calculateTemperatureRisk p); [reflexivity|].
    rewrite H in Hf by lia. discriminate.
  - intros t. unfold hasFever, calculateTemperatureRisk.
    intros Hf Ht. rewrite Ht in *.
    destruct (valid (temperature_data p)); [|discriminate].
    simpl in Hf. revert Hf. num_cases; intros; try discriminate; lra.
Qed.

Lemma X3_fever_and_temperature_score_witness :
  let p := temp_patient true (Some (Fin 100.95)) in
  hasFever p = true /\ calculateTemperatureRisk p = 0%nat
  /\ 100.9 < 100.95 /\ 100.95 < 101.
Proof.
  cbv zeta. set (p := temp_patient _ _).
  assert (Hf : hasFever p = true) by reflexivity.
  assert (Hs : calculateTemperatureRisk p = 0%nat) by reflexivity.
  refine (conj Hf (conj Hs _)).
  exact (proj2 (proj2 (X3_fever_and_temperature_score p)) _ Hf eq_refl Hs).
Defined.

(** X4: [isHighRisk] is the test on the total of [getDetailedRiskScores];
    a blood-pressure score of 4 alone makes a patient high risk; without
    a valid blood pressure a patient is high risk exactly when the
    temperature and the age both score 2; a patient without any valid
    field is not high risk. *)
Theorem X4_high_risk (p : ProcessedPatient) :
  isHighRisk p = (4 <=? rs_total (getDetailedRiskScores p))%nat
  /\ (calculateBloodPressureRisk p = 4%nat -> isHighRisk p = true)
  /\ (bp_valid (blood_pressure_data p) = false ->
      (isHighRisk p = true <->
       calculateTemperatureRisk p = 2%nat /\ calculateAgeRisk p = 2%nat))
  /\ (valid (age_data p) = false ->
      valid (temperature_data p) = false ->
      bp_valid (blood_pressure_data p) = false -> isHighRisk p = false).
Proof.
  unfold isHighRisk, calculateTotalRisk.
  pose proof (calculateTemperatureRisk_le_2 p) as Ht.
  pose proof (calculateAgeRisk_le_2 p) as Ha.
  split; [reflexivity|]. split; [|split].
  - intros ->. apply Nat.leb_le. lia.
  - intros Hb.
    assert (E : calculateBloodPressureRisk p = 0%nat)
      by (unfold calculateBloodPressureRisk; rewrite Hb; reflexivity).
    rewrite E, Nat.leb_le. lia.
  - intros Hage Htemp Hbp.
    assert (E1 : calculateBloodPressureRisk p = 0%nat)
      by (unfold calculateBloodPressureRisk; rewrite Hbp; reflexivity).
    assert (E2 : calculateTemperatureRisk p = 0%nat)
      by (unfold calculateTemperatureRisk; rewrite Htemp; reflexivity).
    assert (E3 : calculateAgeRisk p = 0%nat)
      by (unfold calculateAgeRisk; rewrite Hage; reflexivity).
    rewrite E1, E2, E3. reflexivity.
Qed.

Lemma X4_high_risk_witness :
  let p := bp_patient 150 95 in
  calculateBloodPressureRisk p = 4%nat /\ isHighRisk p = true.
Proof.
  cbv zeta. set (p := bp_patient _ _).
  assert (Hb : calculateBloodPressureRisk p = 4%nat) by reflexivity.
  refine (conj Hb _).
  exact (proj1 (proj2 (X4_high_risk p)) Hb).
Defined.

(** ** Alert lists *)

Lemma generateAlerts_fold (ps : list ProcessedPatient) :
  forall acc,
    fold_left alerts_step ps acc
    = mkSubmission
        (high_risk_patients acc ++ List.map id (filter isHighRisk ps))
        (fever_patients acc ++ List.map id (filter hasFever ps))
        (data_quality_issues acc
         ++ List.map id (filter hasDataQualityIssues ps)).
Proof.
  induction ps as [|p ps IH]; intros acc; cbn [fold_left filter List.map].
  - rewrite !app_nil_r. destruct acc; reflexivity.
  - rewrite IH. unfold alerts_step.
    cbn [high_risk_patients fever_patients data_quality_issues].
    change (4 <=? calculateTotalRisk p)%nat with (isHighRisk p).
    destruct (isHighRisk p); destruct (hasFever p);
      destruct (hasDataQualityIssues p); cbn [List.map];
      rewrite <- ?app_assoc; reflexivity.
Qed.

Lemma generateAlerts_filter (ps : list ProcessedPatient) :
  generateAlerts ps
  = mkSubmission (List.map id (filter isHighRisk ps))
                 (List.map id (filter hasFever ps))
                 (List.map id (filter hasDataQualityIssues ps)).
Proof. unfold generateAlerts. rewrite generateAlerts_fold. reflexivity. Qed.

(** X5: each alert list holds, in the order of the input, the ids of
    exactly the patients that pass its test: [isHighRisk], [hasFever],
    [hasDataQualityIssues]. *)
Theorem X5_alert_lists_are_filters (ps : list ProcessedPatient) :
  high_risk_patients (generateAlerts ps) = List.map id (filter isHighRisk ps)
  /\ fever_patients (generateAlerts ps) = List.map id (filter hasFever ps)
  /\ data_quality_issues (generateAlerts ps)
     = List.map id (filter hasDataQualityIssues ps).
Proof. rewrite generateAlerts_filter. repeat split. Qed.

Lemma filter_length_le_filter (A : Type) (f g : A -> bool) (l : list A) :
  (forall x, f x = true -> g x = true) ->
  (List.length (filter f l) <= List.length (filter g l))%nat.
Proof.
  intros H. induction l as [|x l IH]; simpl; [lia|].
  destruct (f x) eqn:Ef.
  - rewrite (H x Ef). simpl. lia.
  - destruct (g x); simpl; lia.
Qed.

Lemma stats_counts (ps : list ProcessedPatient) :
  forall st,
    let st' := fold_left stats_step ps st in
    validAge st'
    = (validAge st
       + List.length (filter (fun p => valid (age_data p)) ps))%nat
    /\ validBP st'
       = (validBP st
          + List.length
              (filter (fun p => bp_valid (blood_pressure_data p)) ps))%nat
    /\ validTemp st'
       = (validTemp st
          + List.length (filter (fun p => valid (temperature_data p)) ps))%nat.
Proof.
  induction ps as [|p ps IH]; intros st; simpl.
  - repeat split; lia.
  - destruct (IH (stats_step st p)) as (Ha & Hb & Ht).
    rewrite Ha, Hb, Ht. unfold stats_step. simpl.
    destruct (valid (age_data p)), (bp_valid (blood_pressure_data p)),
      (valid (temperature_data p)); simpl; repeat split; lia.
Qed.

Lemma getProcessingStats_counts (ps : list ProcessedPatient) :
  let stats := getProcessingStats ps in
  total stats = List.length ps
  /\ validAge stats = List.length (filter (fun p => valid (age_data p)) ps)
  /\ validBP stats
     = List.length (filter (fun p => bp_valid (blood_pressure_data p)) ps)
  /\ validTemp stats
     = List.length (filter (fun p => valid (temperature_data p)) ps)
  /\ fullyValid stats
     = List.length (filter (fun p => negb (hasDataQualityIssues p)) ps)
  /\ dataQualityIssues stats = List.length (filter hasDataQualityIssues ps).
Proof.
  cbv zeta. unfold getProcessingStats.
  destruct (stats_fold ps (mkStats (List.length ps) 0 0 0 0 0))
    as (Ht & Hf & Hd).
  destruct (stats_counts ps (mkStats (List.length ps) 0 0 0 0 0))
    as (Ha & Hb & Hc).
  simpl in *. repeat split; assumption.
Qed.

(** X6: the three per-field counts of [getProcessingStats] are the
    numbers of patients whose age, blood pressure and temperature are
    valid; the count of fully valid patients is at most each of them and
    each of them is at most the total. *)
Theorem X6_stats_field_counts (ps : list ProcessedPatient) :
  let stats := getProcessingStats ps in
  validAge stats = List.length (filter (fun p => valid (age_data p)) ps)
  /\ validBP stats
     = List.length (filter (fun p => bp_valid (blood_pressure_data p)) ps)
  /\ validTemp stats
     = List.length (filter (fun p => valid (temperature_data p)) ps)
  /\ (fullyValid stats <= validAge stats <= total stats)%nat
  /\ (fullyValid stats <= validBP stats <= total stats)%nat
  /\ (fullyValid stats <= validTemp stats <= total stats)%nat.
Proof.
  cbv zeta.
  destruct (getProcessingStats_counts ps) as (Ht & Ha & Hb & Hc & Hf & _).
  rewrite Ht, Hf, Ha, Hb, Hc.
  repeat split; try apply filter_length_le;
    apply filter_length_le_filter; intros p; unfold hasDataQualityIssues;
    destruct (valid (age_data p)), (bp_valid (blood_pressure_data p)),
      (valid (temperature_data p)); simpl; congruence.
Qed.

(** X7: the alerts and the statistics of the same patients agree: the
    data-quality list is as long as the count of patients with issues,
    the fever list is at most as long as the count of valid
    temperatures, and no list is longer than the total. *)
Theorem X7_alerts_agree_with_stats (ps : list ProcessedPatient) :
  let alerts := generateAlerts ps in
  let stats := getProcessingStats ps in
  List.length (data_quality_issues alerts) = dataQualityIssues stats
  /\ (List.length (fever_patients alerts) <= validTemp stats)%nat
  /\ (List.length (high_risk_patients alerts) <= total stats)%nat
  /\ (List.length (fever_patients alerts) <= total stats)%nat
  /\ (List.length (data_quality_issues alerts) <= total stats)%nat.
Proof.
  cbv zeta. rewrite generateAlerts_filter. simpl.
  destruct (getProcessingStats_counts ps) as (Ht & _ & _ & Hc & _ & Hd).
  rewrite Ht, Hc, Hd, !length_map.
  repeat split; try apply filter_length_le.
  apply filter_length_le_filter. intros p. unfold hasFever.
  destruct (valid (temperature_data p)); simpl; congruence.
Qed.

(** ** Data-quality messages *)

(** X8: [getDataQualityIssues] returns no message exactly when
    [hasDataQualityIssues] is false, one message for each invalid field,
    and the message about the age exactly when the age is invalid. *)
Theorem X8_issue_messages (p : ProcessedPatient) :
  (getDataQualityIssues p = [] <-> hasDataQualityIssues p = false)
  /\ List.length (getDataQualityIssues p)
     = (Nat.b2n (negb (valid (age_data p)))
        + Nat.b2n (negb (bp_valid (blood_pressure_data p)))
        + Nat.b2n (negb (valid (temperature_data p))))%nat
  /\ (In (str "Invalid/missing age data") (getDataQualityIssues p)
      <-> valid (age_data p) = false)
  /\ (In (str "Invalid/missing blood pressure data") (getDataQualityIssues p)
      <-> bp_valid (blood_pressure_data p) = false)
  /\ (In (str "Invalid/missing temperature data") (getDataQualityIssues p)
      <-> valid (temperature_data p) = false).
Proof.
  unfold getDataQualityIssues, hasDataQualityIssues.
  destruct (valid (age_data p)), (bp_valid (blood_pressure_data p)),
    (valid (temperature_data p)); cbv zeta; simpl negb; cbv iota;
    repeat split; intros H; try reflexivity; try discriminate H;
    try (simpl in H; intuition discriminate);
    try (simpl; auto 6).
Qed.

(** ** Batches *)

Lemma processPatients_has_id (l : list any) :
  processPatients l = List.map processPatient (filter has_patient_id l).
Proof. apply processPatients_filter. Qed.

Lemma processPatients_loop_errors (l : list any) :
  forall i results errors,
    snd (processPatients_loop i l results errors)
    = errors
      ++ filter (fun j => negb (has_patient_id (nth (j - i) l JUndefined)))
                (seq i (List.length l)).
Proof.
  induction l as [|r l IH]; intros i results errors.
  - simpl. rewrite app_nil_r. reflexivity.
  - cbn [processPatients_loop List.length seq filter].
    assert (E : filter (fun j => negb (has_patient_id
                                  (nth (j - i) (r :: l) JUndefined)))
                       (seq (S i) (List.length l))
                = filter (fun j => negb (has_patient_id
                                    (nth (j - S i) l JUndefined)))
                         (seq (S i) (List.length l))).
    { apply filter_ext_in. intros j Hj. apply in_seq in Hj.
      replace (j - i)%nat with (S (j - S i)) by lia. reflexivity. }
    rewrite E, Nat.sub_diag. cbn [nth]. unfold has_patient_id at 1.
    destruct (truthy (get r "patient_id")); cbn [negb]; rewrite IH.
    + reflexivity.
    + rewrite <- app_assoc. reflexivity.
Qed.

Lemma processPatients_errors_indices (l : list any) :
  processPatients_errors l
  = filter (fun j => negb (has_patient_id (nth j l JUndefined)))
           (seq 0 (List.length l)).
Proof.
  unfold processPatients_errors. rewrite processPatients_loop_errors.
  cbn [app]. apply filter_ext. intros j. rewrite Nat.sub_0_r. reflexivity.
Qed.

Lemma map_nth_seq (l : list any) :
  List.map (fun j => nth j l JUndefined) (seq 0 (List.length l)) = l.
Proof.
  induction l as [|x l IH]; [reflexivity|].
  cbn [List.length seq List.map nth]. rewrite <- seq_shift, map_map.
  cbn [nth]. rewrite IH. reflexivity.
Qed.

Lemma filter_seq_nth_length (f : any -> bool) (l : list any) :
  List.length (filter (fun j => f (nth j l JUndefined))
                      (seq 0 (List.length l)))
  = List.length (filter f l).
Proof.
  rewrite <- (length_map (fun j => nth j l JUndefined)).
  assert (E : forall (js : list nat),
             List.map (fun j => nth j l JUndefined)
                      (filter (fun j => f (nth j l JUndefined)) js)
             = filter f (List.map (fun j => nth j l JUndefined) js)).
  { induction js as [|j js IH]; simpl; [reflexivity|].
    destruct (f (nth j l JUndefined)); simpl; congruence. }
  rewrite E, map_nth_seq. reflexivity.
Qed.

(** X9: [processPatients] keeps, in the order of the input, the records
    whose [patient_id] is truthy and reports the indices of the others;
    every record is either processed or reported, and every result
    carries a truthy id. *)
Theorem X9_processPatients_accounting (l : list any) :
  processPatients l = List.map processPatient (filter has_patient_id l)
  /\ processPatients_errors l
     = filter (fun j => negb (has_patient_id (nth j l JUndefined)))
              (seq 0 (List.length l))
  /\ (List.length (processPatients l)
      + List.length (processPatients_errors l) = List.length l)%nat
  /\ Forall (fun p => truthy (id p) = true) (processPatients l).
Proof.
  split; [apply processPatients_has_id|].
  split; [apply processPatients_errors_indices|]. split.
  - rewrite processPatients_has_id, processPatients_errors_indices.
    rewrite length_map.
    rewrite (filter_seq_nth_length (fun r => negb (has_patient_id r)) l).
    rewrite Nat.add_comm. apply filter_partition_length.
  - rewrite processPatients_has_id. apply Forall_forall. intros p Hp.
    apply in_map_iff in Hp. destruct Hp as (r & <- & Hr).
    apply filter_In in Hr. exact (proj2 Hr).
Qed.

Lemma getProcessingStats_app (a b : list ProcessedPatient) :
  let s := getProcessingStats (a ++ b) in
  let sa := getProcessingStats a in
  let sb := getProcessingStats b in
  total s = (total sa + total sb)%nat
  /\ validAge s = (validAge sa + validAge sb)%nat
  /\ validBP s = (validBP sa + validBP sb)%nat
  /\ validTemp s = (validTemp sa + validTemp sb)%nat
  /\ fullyValid s = (fullyValid sa + fullyValid sb)%nat
  /\ dataQualityIssues s = (dataQualityIssues sa + dataQualityIssues sb)%nat.
Proof.
  cbv zeta.
  destruct (getProcessingStats_counts (a ++ b))
    as (H1 & H2 & H3 & H4 & H5 & H6).
  destruct (getProcessingStats_counts a) as (A1 & A2 & A3 & A4 & A5 & A6).
  destruct (getProcessingStats_counts b) as (B1 & B2 & B3 & B4 & B5 & B6).
  rewrite H1, H2, H3, H4, H5, H6, A1, A2, A3, A4, A5, A6,
    B1, B2, B3, B4, B5, B6.
  rewrite !filter_app, !length_app. repeat split.
Qed.

(** X10: a batch can be processed in pieces: over the concatenation of
    two batches the processed patients and the three alert lists are the
    concatenations, and every count of the statistics is the sum. *)
Theorem X10_pipeline_of_concatenation (a b : list any) :
  processPatients (a ++ b) = processPatients a ++ processPatients b
  /\ (let (al, st) := pipeline (a ++ b) in
      let (al1, st1) := pipeline a in
      let (al2, st2) := pipeline b in
      high_risk_patients al = high_risk_patients al1 ++ high_risk_patients al2
      /\ fever_patients al = fever_patients al1 ++ fever_patients al2
      /\ data_quality_issues al
         = data_quality_issues al1 ++ data_quality_issues al2
      /\ total st = (total st1 + total st2)%nat
      /\ validAge st = (validAge st1 + validAge st2)%nat
      /\ validBP st = (validBP st1 + validBP st2)%nat
      /\ validTemp st = (validTemp st1 + validTemp st2)%nat
      /\ fullyValid st = (fullyValid st1 + fullyValid st2)%nat
      /\ dataQualityIssues st
         = (dataQualityIssues st1 + dataQualityIssues st2)%nat).
Proof.
  assert (E : processPatients (a ++ b) = processPatients a ++ processPatients b)
    by (rewrite !processPatients_has_id, filter_app, map_app; reflexivity).
  split; [exact E|]. unfold pipeline. rewrite E.
  rewrite !generateAlerts_filter.
  cbn [high_risk_patients fever_patients data_quality_issues].
  rewrite !filter_app, !map_app.
  split; [reflexivity|]. split; [reflexivity|]. split; [reflexivity|].
  apply getProcessingStats_app.
Qed.

(** X11: a record whose [patient_id] is falsy (absent, null, the empty
    string, 0, NaN or false) changes nothing: the alerts and the
    statistics are those of the batch without it. *)
Theorem X11_record_without_id_is_invisible (l1 l2 : list any) (r : any) :
  has_patient_id r = false ->
  processPatients (l1 ++ r :: l2) = processPatients (l1 ++ l2)
  /\ pipeline (l1 ++ r :: l2) = pipeline (l1 ++ l2).
Proof.
  intros H.
  assert (E : processPatients (l1 ++ r :: l2) = processPatients (l1 ++ l2)).
  { rewrite !processPatients_has_id, !filter_app. cbn [filter].
    rewrite H. reflexivity. }
  split; [exact E|]. unfold pipeline. rewrite E. reflexivity.
Qed.

Lemma X11_record_without_id_is_invisible_witness :
  let r := record (JNum (Fin 0)) (JNum (Fin 70)) (JStr (str "150/95"))
                  (JNum (Fin 102)) in
  has_patient_id r = false
  /\ pipeline (example_batch ++ r :: example_batch)
     = pipeline (example_batch ++ example_batch).
Proof.
  cbv zeta. set (r := record _ _ _ _).
  assert (H : has_patient_id r = false) by reflexivity.
  refine (conj H _).
  exact (proj2 (X11_record_without_id_is_invisible
                  example_batch example_batch r H)).
Defined.

(** ** Temperature *)

Lemma temperature_range (n : number) :
  isValidTemperature n = true <-> in_range 90 110 n.
Proof.
  unfold isValidTemperature, in_range.
  destruct n as [| | |q]; simpl;
    try (split; [discriminate | intros (q & E & _); discriminate]).
  split.
  - intros H. exists q. num_cases; try discriminate. auto.
  - intros (q' & E & H1 & H2). injection E as ->.
    num_cases; try reflexivity; exfalso; lra.
Qed.

Lemma processTemperature_string (s : jsstring) :
  processTemperature (JStr s)
  = let result := mkField false None (JStr s) in
    if includes (toLowerCase (trim s)) (str "temp_error")
       || includes (toLowerCase (trim s)) (str "invalid")
       || includes (toLowerCase (trim s)) (str "n/a")
       || includes (toLowerCase (trim s)) (str "error")
    then result
    else
      match parseNumericValue (JStr (trim (strip_units (trim s)))) with
      | Some numericTemp =>
          if isValidTemperature numericTemp
          then mkField true (Some numericTemp) (JStr s)
          else result
      | None => result
      end.
Proof. destruct s as [|c s]; reflexivity. Qed.

(** A string that holds "temp_error" holds "error". *)
Lemma temp_error_is_error (s : jsstring) :
  includes s (str "temp_error") = true -> includes s (str "error") = true.
Proof.
  rewrite !includes_spec. intros (pre & post & ->).
  exists (pre ++ str "temp_"), post. rewrite <- app_assoc. reflexivity.
Qed.

Lemma temp_markers (s : jsstring) :
  includes (toLowerCase (trim s)) (str "temp_error")
  || includes (toLowerCase (trim s)) (str "invalid")
  || includes (toLowerCase (trim s)) (str "n/a")
  || includes (toLowerCase (trim s)) (str "error") = false
  <-> ~ contains_ci s (str "invalid") /\ ~ contains_ci s (str "n/a")
      /\ ~ contains_ci s (str "error").
Proof.
  rewrite <- bp_markers.
  pose proof (temp_error_is_error (toLowerCase (trim s))) as H.
  destruct (includes (toLowerCase (trim s)) (str "temp_error"));
    destruct (includes (toLowerCase (trim s)) (str "invalid"));
    destruct (includes (toLowerCase (trim s)) (str "n/a"));
    destruct (includes (toLowerCase (trim s)) (str "error"));
    simpl; try tauto; specialize (H eq_refl); discriminate.
Qed.

Lemma parseNumericValue_trim (x : jsstring) :
  parseNumericValue (JStr (trim x)) = parseNumericValue (JStr x).
Proof. unfold parseNumericValue. rewrite trim_idem. reflexivity. Qed.

Lemma processTemperature_string_spec (s : jsstring) (n : number) :
  let r := processTemperature (JStr s) in
  valid r = true /\ value r = Some n
  <-> temp_string_form s n /\ in_range 90 110 n.
Proof.
  cbv zeta. rewrite processTemperature_string. cbv zeta.
  unfold temp_string_form. rewrite <- temperature_range.
  match goal with |- context [if ?b then _ else _] =>
    destruct b eqn:Em end.
  - split; [intros (H & _); discriminate|].
    intros ((H1 & H2 & H3 & _) & _).
    assert (K : true = false) by (rewrite <- Em; apply temp_markers; auto).
    discriminate.
  - apply temp_markers in Em. destruct Em as (M1 & M2 & M3).
    rewrite <- parseNumericValue_string, parseNumericValue_trim.
    destruct (parseNumericValue (JStr (strip_units (trim s))))
      as [t|] eqn:Ep.
    + destruct (isValidTemperature t) eqn:Ev; cbn [valid value].
      * split.
        -- intros (_ & E). injection E as <-. auto 6.
        -- intros ((_ & _ & _ & E) & _). injection E as <-. auto.
      * split; [intros (H & _); discriminate|].
        intros ((_ & _ & _ & E) & H). injection E as <-. congruence.
    + cbn [valid value]. split; [intros (H & _); discriminate|].
      intros ((_ & _ & _ & E) & _). discriminate.
Qed.

Lemma processTemperature_number_spec (m n : number) :
  let r := processTemperature (JNum m) in
  valid r = true /\ value r = Some n <-> m = n /\ in_range 90 110 n.
Proof.
  cbv zeta. unfold processTemperature. rewrite <- temperature_range.
  destruct (Num.isNaN m) eqn:En; cbn [negb andb].
  - destruct m; try discriminate. cbn [valid value].
    split; [intros (H & _); discriminate|]. intros (<- & H). discriminate.
  - destruct (isValidTemperature m) eqn:Ev; cbn [valid value].
    + split.
      * intros (_ & E). injection E as <-. auto.
      * intros (<- & _). auto.
    + split; [intros (H & _); discriminate|]. intros (<- & H). congruence.
Qed.

Lemma processTemperature_values (v : any) :
  (valid (processTemperature v) = true ->
   exists n, value (processTemperature v) = Some n)
  /\ (valid (processTemperature v) = false ->
      value (processTemperature v) = None).
Proof.
  destruct v as [| | b | m | s | props];
    try (split; [discriminate | reflexivity]).
  - unfold processTemperature.
    destruct (negb (Num.isNaN m) && isValidTemperature m); cbn [valid value];
      split; intros; eauto; discriminate.
  - rewrite processTemperature_string. cbv zeta.
    repeat match goal with
           | |- context [if ?b then _ else _] => destruct b
           | |- context [match ?o with Some _ => _ | None => _ end] =>
               destruct o
           end; cbn [valid value]; split; intros; eauto; discriminate.
Qed.

(** X12: the temperature is valid exactly when it is a number in
    [90,110], or a string without the markers "invalid", "n/a", "error"
    (the marker "temp_error" is covered by "error") that is read as a
    number in [90,110] once trimmed and stripped of unit markers; the
    result then carries this number, and an invalid result carries no
    value. *)
Theorem X12_processTemperature (v : any) :
  let r := processTemperature v in
  (forall n, valid r = true /\ value r = Some n <->
             (v = JNum n \/ exists s, v = JStr s /\ temp_string_form s n)
             /\ in_range 90 110 n)
  /\ (valid r = true <->
      exists n, (v = JNum n \/ exists s, v = JStr s /\ temp_string_form s n)
                /\ in_range 90 110 n)
  /\ (valid r = false -> value r = None).
Proof.
  cbv zeta.
  assert (Hn : forall n,
             valid (processTemperature v) = true
             /\ value (processTemperature v) = Some n <->
             (v = JNum n \/ exists s, v = JStr s /\ temp_string_form s n)
             /\ in_range 90 110 n).
  { intros n. destruct v as [| | b | m | s | props];
      try (split;
           [ intros (H & _); discriminate
           | intros ([E | (s & E & _)] & _); discriminate ]).
    - rewrite (processTemperature_number_spec m n). split.
      + intros (-> & R). auto.
      + intros ([E | (s & E & _)] & R); [|discriminate].
        injection E as ->. auto.
    - rewrite (processTemperature_string_spec s n). split.
      + intros (F & R). split; [|exact R]. right. exists s. auto.
      + intros ([E | (s' & E & F)] & R); [discriminate|].
        injection E as <-. auto. }
  split; [exact Hn|]. split.
  - split.
    + intros H. destruct (proj1 (processTemperature_values v) H) as (n & E).
      exists n. apply Hn. auto.
    + intros (n & H). apply Hn in H. tauto.
  - apply processTemperature_values.
Qed.

Lemma X12_processTemperature_witness :
  valid (processTemperature (JStr (str "TEMP_ERROR"))) = false
  /\ value (processTemperature (JStr (str "TEMP_ERROR"))) = None.
Proof.
  assert (H : valid (processTemperature (JStr (str "TEMP_ERROR"))) = false)
    by reflexivity.
  refine (conj H _).
  exact (proj2 (proj2 (X12_processTemperature (JStr (str "TEMP_ERROR")))) H).
Defined.

(** ** Normalised fields *)

Lemma processAge_valid_value (v : any) :
  valid (processAge v) = true ->
  exists q, value (processAge v) = Some (Fin q) /\ 0 <= q /\ q <= 150.
Proof.
  intros H. destruct v as [| | b | n | s | props]; try discriminate.
  - pose proof H as Hn. apply processAge_number in Hn.
    destruct Hn as (q & -> & H0 & H150).
    exists q. split; [|split; lra].
    revert H. unfold processAge.
    match goal with |- context [if ?b then _ else _] => destruct b end;
      [reflexivity | discriminate].
  - destruct (proj1 (proj1 (processAge_string_spec s)) H)
      as (a & Hf & H0 & H150).
    rewrite (proj2 (processAge_string_spec s) a Hf H).
    destruct (round_half_up a) as [Hlo Hhi].
    set (k := Qfloor (a + (1 # 2))) in *.
    exists (inject_Z k). split; [reflexivity|].
    assert (Hk1 : - (1 # 2) < inject_Z k) by lra.
    assert (Hk2 : inject_Z k < 301 # 2) by lra.
    unfold Qlt in Hk1, Hk2. simpl in Hk1, Hk2.
    split; unfold Qle; simpl; lia.
Qed.

Lemma pair_result_invalid (a b : option number) (bp : any) :
  bp_valid (pair_result a b bp) = false ->
  systolic (pair_result a b bp) = None
  /\ diastolic (pair_result a b bp) = None.
Proof.
  unfold pair_result, checked_pair.
  destruct a as [s|], b as [d|]; cbn [bp_valid systolic diastolic]; auto.
  destruct (isValidBloodPressureValue s true
            && isValidBloodPressureValue d false);
    cbn [bp_valid systolic diastolic]; [discriminate | auto].
Qed.

Lemma processBloodPressure_invalid (v : any) :
  bp_valid (processBloodPressure v) = false ->
  systolic (processBloodPressure v) = None
  /\ diastolic (processBloodPressure v) = None.
Proof.
  destruct v as [| | b | n | s | props]; try (intros _; split; reflexivity).
  - rewrite processBloodPressure_string. cbv zeta.
    repeat match goal with
    | |- context [if ?b then _ else _] => destruct b
    | |- context [match ?l with [] => _ | _ :: _ => _ end] => destruct l
    end; try (intros _; split; reflexivity).
    apply pair_result_invalid.
  - rewrite processBloodPressure_object. apply pair_result_invalid.
Qed.

Lemma processBloodPressure_valid_value (v : any) :
  bp_valid (processBloodPressure v) = true ->
  exists s d, systolic (processBloodPressure v) = Some (Fin s)
              /\ diastolic (processBloodPressure v) = Some (Fin d)
              /\ (70 <= s /\ s <= 300) /\ (40 <= d /\ d <= 200).
Proof.
  intros H. destruct (processBloodPressure_values v H) as (sys & dia & Es & Ed).
  destruct (proj1 (processBloodPressure_form v sys dia) (conj H (conj Es Ed)))
    as (_ & (s & -> & Hs) & (d & -> & Hd)).
  exists s, d. auto.
Qed.

Lemma processTemperature_valid_value (v : any) :
  valid (processTemperature v) = true ->
  exists t, value (processTemperature v) = Some (Fin t)
            /\ 90 <= t /\ t <= 110.
Proof.
  intros H. destruct (proj1 (processTemperature_values v) H) as (n & E).
  assert (R : in_range 90 110 n).
  { destruct v as [| | b | m | s | props]; try discriminate.
    - apply (processTemperature_number_spec m n). auto.
    - apply (processTemperature_string_spec s n). auto. }
  destruct R as (t & -> & R). exists t. auto.
Qed.

Lemma pair_result_original (a b : option number) (bp : any) :
  bp_original (pair_result a b bp) = bp.
Proof.
  unfold pair_result, checked_pair.
  destruct a as [s|], b as [d|]; try reflexivity.
  destruct (isValidBloodPressureValue s true
            && isValidBloodPressureValue d false); reflexivity.
Qed.

Lemma original_kept (v : any) :
  original (processAge v) = v /\ bp_original (processBloodPressure v) = v
  /\ original (processTemperature v) = v.
Proof.
  split; [|split].
  - destruct v as [| | b | n | s | props]; try reflexivity.
    + unfold processAge.
      match goal with |- context [if ?b then _ else _] => destruct b end;
        reflexivity.
    + rewrite processAge_string. cbv zeta.
      repeat match goal with
             | |- context [if ?b then _ else _] => destruct b
             end; reflexivity.
  - destruct v as [| | b | n | s | props]; try reflexivity.
    + rewrite processBloodPressure_string. cbv zeta.
      repeat match goal with
      | |- context [if ?b then _ else _] => destruct b
      | |- context [match ?l with [] => _ | _ :: _ => _ end] => destruct l
      end; try reflexivity. apply pair_result_original.
    + rewrite processBloodPressure_object. apply pair_result_original.
  - destruct v as [| | b | n | s | props]; try reflexivity.
    + unfold processTemperature.
      match goal with |- context [if ?b then _ else _] => destruct b end;
        reflexivity.
    + rewrite processTemperature_string. cbv zeta.
      repeat match goal with
             | |- context [if ?b then _ else _] => destruct b
             | |- context [match ?o with Some _ => _ | None => _ end] =>
                 destruct o
             end; reflexivity.
Qed.

(** X13: every normalised field keeps the raw value in [original]; a
    valid field carries finite values within its range (age between 0
    and 150, systolic in [70,300], diastolic in [40,200], temperature in
    [90,110]) and an invalid field carries no value. *)
Theorem X13_normalised_fields (v : any) :
  (original (processAge v) = v
   /\ bp_original (processBloodPressure v) = v
   /\ original (processTemperature v) = v)
  /\ (valid (processAge v) = true ->
      exists q, value (processAge v) = Some (Fin q) /\ 0 <= q /\ q <= 150)
  /\ (bp_valid (processBloodPressure v) = true ->
      exists s d, systolic (processBloodPressure v) = Some (Fin s)
                  /\ diastolic (processBloodPressure v) = Some (Fin d)
                  /\ (70 <= s /\ s <= 300) /\ (40 <= d /\ d <= 200))
  /\ (valid (processTemperature v) = true ->
      exists t, value (processTemperature v) = Some (Fin t)
                /\ 90 <= t /\ t <= 110)
  /\ (valid (processAge v) = false -> value (processAge v) = None)
  /\ (bp_valid (processBloodPressure v) = false ->
      systolic (processBloodPressure v) = None
      /\ diastolic (processBloodPressure v) = None)
  /\ (valid (processTemperature v) = false ->
      value (processTemperature v) = None).
Proof.
  split; [apply original_kept|].
  split; [apply processAge_valid_value|].
  split; [apply processBloodPressure_valid_value|].
  split; [apply processTemperature_valid_value|].
  split; [apply processAge_invalid_no_value|].
  split; [apply processBloodPressure_invalid|].
  apply processTemperature_values.
Qed.

Lemma X13_normalised_fields_witness :
  valid (processAge (JStr (str "149.5"))) = true
  /\ exists q, value (processAge (JStr (str "149.5"))) = Some (Fin q)
               /\ 0 <= q /\ q <= 150.
Proof.
  assert (H : valid (processAge (JStr (str "149.5"))) = true) by reflexivity.
  refine (conj H _).
  exact (proj1 (proj2 (X13_normalised_fields (JStr (str "149.5")))) H).
Defined.

(** The ends 0 and 150 are reached from strings, though the test on the
    parsed age is 0 < a < 150. *)
Lemma processAge_string_ends :
  value (processAge (JStr (str "149.5"))) = Some (Fin 150)
  /\ value (processAge (JStr (str "0.4"))) = Some (Fin 0)
  /\ valid (processAge (JNum (Fin 150))) = false
  /\ valid (processAge (JNum (Fin 0))) = false.
Proof. vm_compute. repeat split. Qed.

(** ** Scores of processed records *)

Lemma finalStage_unmatched (s d : Q) :
  stage_score (finalStage (Fin s) (Fin d)) = 0%nat -> bp_gap s d.
Proof.
  unfold finalStage, bp_gap. num_cases; simpl; try discriminate;
    intros _; lra.
Qed.

Lemma finalStage_integers (s d : Q) (zs zd : Z) :
  s == inject_Z zs -> d == inject_Z zd ->
  (1 <= stage_score (finalStage (Fin s) (Fin d)) <= 4)%nat.
Proof.
  intros Hs Hd. split; [|apply stage_score_le_4].
  destruct (stage_score (finalStage (Fin s) (Fin d))) eqn:E; [|lia].
  exfalso. apply finalStage_unmatched in E.
  unfold bp_gap in E. rewrite Hs, Hd in E.
  unfold Qlt, inject_Z in E. simpl in E. lia.
Qed.

(** X14: on the patient made from any raw record the age score is 0
    exactly when the age is invalid.  A valid blood pressure scores 0
    only when the systolic value lies strictly between 129 and 130 or
    between 139 and 140, or the diastolic value strictly between 89 and
    90; whole-number readings score between 1 and 4.  A patient with a
    valid age and a blood-pressure score of 3 or 4 is high risk. *)
Theorem X14_scores_of_processed_record (r : any) :
  let p := processPatient r in
  (calculateAgeRisk p = 0%nat <-> valid (age_data p) = false)
  /\ (bp_valid (blood_pressure_data p) = true ->
      calculateBloodPressureRisk p = 0%nat ->
      exists s d, systolic (blood_pressure_data p) = Some (Fin s)
                  /\ diastolic (blood_pressure_data p) = Some (Fin d)
                  /\ bp_gap s d)
  /\ (forall s d zs zd,
        bp_valid (blood_pressure_data p) = true ->
        systolic (blood_pressure_data p) = Some (Fin s) ->
        diastolic (blood_pressure_data p) = Some (Fin d) ->
        s == inject_Z zs -> d == inject_Z zd ->
        (1 <= calculateBloodPressureRisk p <= 4)%nat)
  /\ (valid (age_data p) = true ->
      (3 <= calculateBloodPressureRisk p)%nat -> isHighRisk p = true).
Proof.
  cbv zeta. unfold processPatient.
  set (a := get r "age"). set (b := get r "blood_pressure").
  set (t := get r "temperature"). set (i := get r "patient_id").
  assert (Hage : valid (processAge a) = true ->
                 (1 <= calculateAgeRisk
                         (mkPatient i (processAge a) (processBloodPressure b)
                                    (processTemperature t)))%nat).
  { intros H. destruct (processAge_valid_value a H) as (q & Eq & _).
    unfold calculateAgeRisk. cbn [age_data]. rewrite H, Eq.
    num_cases; try lia; exfalso; lra. }
  cbn [blood_pressure_data age_data] in *.
  split; [|split; [|split]].
  - destruct (valid (processAge a)) eqn:E.
    + specialize (Hage eq_refl). split; [lia | discriminate].
    + split; [reflexivity|]. intros _.
      unfold calculateAgeRisk. cbn [age_data]. rewrite E. reflexivity.
  - intros H H0. destruct (processBloodPressure_valid_value b H)
      as (s & d & Es & Ed & _).
    exists s, d. split; [exact Es|]. split; [exact Ed|].
    apply finalStage_unmatched. revert H0.
    unfold calculateBloodPressureRisk. cbn [blood_pressure_data].
    rewrite H, Es, Ed. auto.
  - intros s d zs zd H Es Ed Hs Hd.
    unfold calculateBloodPressureRisk. cbn [blood_pressure_data].
    rewrite H, Es, Ed. exact (finalStage_integers Hs Hd).
  - intros Hv H3. specialize (Hage Hv).
    unfold isHighRisk, calculateTotalRisk. apply Nat.leb_le. lia.
Qed.

Lemma X14_scores_of_processed_record_witness :
  let p := processPatient (record (JStr (str "G")) (JNum (Fin 45))
                                  (JStr (str "129.5/70")) (JNum (Fin 98.6))) in
  bp_valid (blood_pressure_data p) = true
  /\ calculateBloodPressureRisk p = 0%nat
  /\ exists s d, systolic (blood_pressure_data p) = Some (Fin s)
                 /\ diastolic (blood_pressure_data p) = Some (Fin d)
                 /\ bp_gap s d.
Proof.
  cbv zeta.
  set (r := record _ _ _ _).
  assert (Hv : bp_valid (blood_pressure_data (processPatient r)) = true)
    by reflexivity.
  assert (H0 : calculateBloodPressureRisk (processPatient r) = 0%nat)
    by reflexivity.
  refine (conj Hv (conj H0 _)).
  exact (proj1 (proj2 (X14_scores_of_processed_record r)) Hv H0).
Defined.

(** ** Plain readings *)

Lemma trim_no_whitespace (s : jsstring) :
  forallb (fun c => negb (is_whitespace c)) s = true -> trim s = s.
Proof.
  intros H. unfold trim, trimStart, trimEnd.
  assert (K : forall l, forallb (fun c => negb (is_whitespace c)) l = true ->
                        dropWhile is_whitespace l = l).
  { intros l Hl. apply dropWhile_id. destruct l as [|c l]; [exact I|].
    simpl in Hl. apply andb_true_iff in Hl. destruct Hl as [Hc _].
    apply negb_true_iff in Hc. exact Hc. }
  rewrite (K s H), K; [apply rev_involutive|].
  rewrite forallb_forall in *. intros x Hx. apply H, in_rev, Hx.
Qed.

Lemma includes_head_absent (s pat : jsstring) (p0 : N) :
  ~ In p0 s -> includes s (p0 :: pat) = false.
Proof.
  intros Hn. destruct (includes s (p0 :: pat)) eqn:E; [|reflexivity].
  apply includes_spec in E. destruct E as (pre & post & ->).
  exfalso. apply Hn. apply in_or_app. right. left. reflexivity.
Qed.

Lemma plain_char_cases (c : N) :
  plain_char c = true ->
  is_digit c = true
  \/ In c [46; 47; 176; 186; 102; 70; 8457]%N.
Proof.
  unfold plain_char, is_unit_marker, dot, slash.
  rewrite !orb_true_iff, !N.eqb_eq. simpl. intuition.
Qed.

Lemma plain_char_facts (c : N) :
  plain_char c = true ->
  is_whitespace c = false
  /\ ~ In (lower c) [116; 105; 110; 101]%N.
Proof.
  intros H. apply plain_char_cases in H. destruct H as [H | H].
  - split; [apply (digit_facts c H)|].
    unfold is_digit in H. apply andb_true_iff in H. destruct H as [H1 H2].
    apply N.leb_le in H1. apply N.leb_le in H2.
    unfold lower.
    destruct (N.leb_spec 65 c) as [E|E]; [exfalso; lia|].
    simpl. intros [K|[K|[K|[K|[]]]]]; lia.
  - simpl in H.
    destruct H as [<-|[<-|[<-|[<-|[<-|[<-|[<-|[]]]]]]]];
      (split; [reflexivity|]); vm_compute;
      intros [K|[K|[K|[K|[]]]]]; discriminate.
Qed.

Lemma plain_string_facts (s : jsstring) :
  forallb plain_char s = true ->
  trim s = s
  /\ includes (toLowerCase s) (str "temp_error") = false
  /\ includes (toLowerCase s) (str "invalid") = false
  /\ includes (toLowerCase s) (str "n/a") = false
  /\ includes (toLowerCase s) (str "error") = false.
Proof.
  intros H. rewrite forallb_forall in H.
  assert (Hw : trim s = s).
  { apply trim_no_whitespace. apply forallb_forall. intros c Hc.
    rewrite (proj1 (plain_char_facts c (H c Hc))). reflexivity. }
  assert (Hm : forall p0, In p0 [116; 105; 110; 101]%N ->
                          ~ In p0 (toLowerCase s)).
  { intros p0 Hp Hi. unfold toLowerCase in Hi.
    apply in_map_iff in Hi. destruct Hi as (c & <- & Hc).
    exact (proj2 (plain_char_facts c (H c Hc)) Hp). }
  split; [exact Hw|].
  repeat split; apply includes_head_absent, Hm; simpl; auto.
Qed.

Lemma parseFloat_digits (ds : jsstring) :
  ds <> [] -> forallb is_digit ds = true ->
  parseFloat ds = Fin (inject_Z (digits_value ds)).
Proof.
  intros Hne Hds. destruct ds as [|c ds0]; [congruence|].
  assert (Hc : is_digit c = true)
    by (simpl in Hds; apply andb_true_iff in Hds; tauto).
  rewrite parseFloat_digit_first by exact Hc. cbv zeta.
  destruct (span_app is_digit (c :: ds0) [] Hds I) as [E1 E2].
  rewrite app_nil_r in E1, E2. rewrite E1, E2. reflexivity.
Qed.

Lemma forallb_weaken (A : Type) (f g : A -> bool) (l : list A) :
  (forall x, f x = true -> g x = true) ->
  forallb f l = true -> forallb g l = true.
Proof.
  intros H. rewrite !forallb_forall. auto.
Qed.

Lemma digit_plain (c : N) : is_digit c = true -> plain_char c = true.
Proof. unfold plain_char. intros ->. reflexivity. Qed.

Lemma digit_not_unit (c : N) : is_digit c = true -> is_unit_marker c = false.
Proof.
  unfold is_digit, is_unit_marker. intros H.
  apply andb_true_iff in H. destruct H as [H1 H2].
  apply N.leb_le in H1. apply N.leb_le in H2.
  repeat match goal with
  | |- context [(c =? ?k)%N] =>
      let E := fresh in
      destruct (N.eqb_spec c k) as [E|E]; [exfalso; lia | clear E]
  end.
  reflexivity.
Qed.

Lemma pattern_chars (t ds fs : jsstring) :
  unsigned_decimal_pattern t ds fs ->
  forallb plain_char t = true
  /\ strip_units t = t /\ t <> [].
Proof.
  intros (Hne & Hds & Hfs & Ht).
  assert (K : forall l, forallb is_digit l = true ->
                        forallb plain_char l = true /\ strip_units l = l).
  { intros l Hl. split; [exact (forallb_weaken _ _ l digit_plain Hl)|].
    unfold strip_units. induction l as [|c l IH]; [reflexivity|].
    simpl in Hl. apply andb_true_iff in Hl. destruct Hl as [Hc Hl].
    simpl. rewrite (digit_not_unit c Hc). simpl. rewrite (IH Hl).
    reflexivity. }
  destruct (K ds Hds) as [P1 S1]. destruct (K fs Hfs) as [P2 S2].
  destruct Ht as [[-> ->] | [_ ->]].
  - auto.
  - split; [|split].
    + rewrite forallb_app. simpl. rewrite P1, P2. reflexivity.
    + unfold strip_units in *. rewrite filter_app. simpl.
      rewrite S1, S2. reflexivity.
    + destruct ds; discriminate.
Qed.

Lemma unit_markers_stripped (u : jsstring) :
  forallb is_unit_marker u = true ->
  forallb plain_char u = true /\ strip_units u = [].
Proof.
  intros H. split.
  - apply (forallb_weaken is_unit_marker plain_char); [|exact H].
    intros c Hc. unfold plain_char. rewrite Hc. apply orb_true_r.
  - unfold strip_units. induction u as [|c u IH]; [reflexivity|].
    simpl in H. apply andb_true_iff in H. destruct H as [Hc Hu].
    simpl. rewrite Hc. simpl. exact (IH Hu).
Qed.

Lemma plain_temperature (t u : jsstring) :
  forallb plain_char t = true -> strip_units t = t ->
  forallb is_unit_marker u = true ->
  let n := parseFloat t in
  let r := processTemperature (JStr (t ++ u)) in
  (valid r = true <-> in_range 90 110 n)
  /\ (valid r = true -> value r = Some n)
  /\ (valid r = false -> value r = None).
Proof.
  intros Pt St Hu. cbv zeta.
  destruct (unit_markers_stripped u Hu) as (Pu & Su).
  assert (Ptu : forallb plain_char (t ++ u) = true)
    by (rewrite forallb_app, Pt, Pu; reflexivity).
  destruct (plain_string_facts _ Ptu) as (Tw & M1 & M2 & M3 & M4).
  destruct (plain_string_facts _ Pt) as (Tt & _).
  rewrite processTemperature_string. cbv zeta.
  rewrite Tw, M1, M2, M3, M4. cbn [orb].
  replace (strip_units (t ++ u)) with t
    by (unfold strip_units in *; rewrite filter_app, St, Su, app_nil_r;
        reflexivity).
  rewrite parseNumericValue_trim. rewrite <- temperature_range.
  unfold parseNumericValue. rewrite Tt.
  destruct t as [|c t0]; [split; [split|split]; discriminate || reflexivity|].
  cbn [is_empty].
  destruct (parseFloat (c :: t0)) as [| | |x] eqn:En; cbn [Num.isNaN].
  - cbn [valid value]. split; [split; discriminate|].
    split; [discriminate | reflexivity].
  - destruct (isValidTemperature PosInf) eqn:Ev; cbn [valid value].
    + split; [split; reflexivity|]. split; [reflexivity | discriminate].
    + split; [split; discriminate|]. split; [discriminate | reflexivity].
  - destruct (isValidTemperature NegInf) eqn:Ev; cbn [valid value].
    + split; [split; reflexivity|]. split; [reflexivity | discriminate].
    + split; [split; discriminate|]. split; [discriminate | reflexivity].
  - destruct (isValidTemperature (Fin x)) eqn:Ev; cbn [valid value].
    + split; [split; reflexivity|]. split; [reflexivity | discriminate].
    + split; [split; discriminate|]. split; [discriminate | reflexivity].
Qed.

(** X15: a plain decimal followed by any run of unit markers (°, º, f,
    F, ℉), such as "101.5°F", is read like the decimal alone: the
    temperature is valid exactly when the number that [parseFloat] reads
    from the decimal lies in [90,110], the value is that number, and the
    validity and the value are those of the decimal without the
    markers. *)
Theorem X15_temperature_with_unit (t ds fs u : jsstring) :
  unsigned_decimal_pattern t ds fs ->
  forallb is_unit_marker u = true ->
  let n := parseFloat t in
  let r := processTemperature (JStr (t ++ u)) in
  (valid r = true <-> in_range 90 110 n)
  /\ (valid r = true -> value r = Some n)
  /\ valid r = valid (processTemperature (JStr t))
  /\ value r = value (processTemperature (JStr t)).
Proof.
  intros Hp Hu. cbv zeta.
  destruct (pattern_chars Hp) as (Pt & St & Hne).
  destruct (@plain_temperature t u Pt St Hu) as (V1 & W1 & N1).
  destruct (@plain_temperature t [] Pt St eq_refl) as (V2 & W2 & N2).
  rewrite app_nil_r in V2, W2, N2.
  split; [exact V1|]. split; [exact W1|].
  destruct (valid (processTemperature (JStr (t ++ u)))) eqn:E1;
    destruct (valid (processTemperature (JStr t))) eqn:E2.
  - split; [reflexivity|]. rewrite W1, W2; reflexivity.
  - exfalso. assert (K : false = true) by (apply V2, V1; reflexivity).
    discriminate.
  - exfalso. assert (K : false = true) by (apply V1, V2; reflexivity).
    discriminate.
  - split; [reflexivity|]. rewrite N1, N2; reflexivity.
Qed.

Lemma X15_temperature_with_unit_witness :
  unsigned_decimal_pattern (str "101.5") (str "101") (str "5")
  /\ forallb is_unit_marker [176%N; 70%N] = true
  /\ valid (processTemperature (JStr (str "101.5" ++ [176%N; 70%N]))) = true
  /\ value (processTemperature (JStr (str "101.5" ++ [176%N; 70%N])))
     = Some (parseFloat (str "101.5")).
Proof.
  assert (Hp : unsigned_decimal_pattern (str "101.5") (str "101") (str "5")).
  { repeat split; try discriminate. right. split; [discriminate|].
    reflexivity. }
  assert (Hu : forallb is_unit_marker [176%N; 70%N] = true) by reflexivity.
  assert (Hv : valid (processTemperature
                        (JStr (str "101.5" ++ [176%N; 70%N]))) = true)
    by reflexivity.
  refine (conj Hp (conj Hu (conj Hv _))).
  exact (proj1 (proj2 (@X15_temperature_with_unit _ _ _ _ Hp Hu)) Hv).
Defined.

(** X16: two runs of digits around one slash, such as "120/80", are read
    as the two whole numbers: the reading is valid exactly when the
    first is in [70,300] and the second in [40,200], and the result
    carries the two numbers. *)
Theorem X16_blood_pressure_of_digits (ds ds' : jsstring) :
  ds <> [] -> ds' <> [] ->
  forallb is_digit ds = true -> forallb is_digit ds' = true ->
  let s := inject_Z (digits_value ds) in
  let d := inject_Z (digits_value ds') in
  let r := processBloodPressure (JStr (ds ++ slash :: ds')) in
  (bp_valid r = true <-> (70 <= s /\ s <= 300) /\ (40 <= d /\ d <= 200))
  /\ (bp_valid r = true ->
      systolic r = Some (Fin s) /\ diastolic r = Some (Fin d)).
Proof.
  intros Hne Hne' Hds Hds'. cbv zeta.
  assert (P1 : forallb plain_char ds = true)
    by exact (forallb_weaken _ _ ds digit_plain Hds).
  assert (P2 : forallb plain_char ds' = true)
    by exact (forallb_weaken _ _ ds' digit_plain Hds').
  assert (P : forallb plain_char (ds ++ slash :: ds') = true)
    by (rewrite forallb_app; simpl; rewrite P1, P2; reflexivity).
  destruct (plain_string_facts _ P) as (Tw & _ & M2 & M3 & M4).
  destruct (plain_string_facts _ P1) as (T1 & _).
  destruct (plain_string_facts _ P2) as (T2 & _).
  assert (Nd : forall l, forallb is_digit l = true -> ~ In slash l).
  { intros l Hl Hi. rewrite forallb_forall in Hl.
    specialize (Hl _ Hi). discriminate. }
  assert (Es : split slash (ds ++ slash :: ds') = [ds; ds'])
    by (apply split_pair; auto).
  rewrite processBloodPressure_string. cbv zeta.
  rewrite Tw, M2, M3, M4, Es, (split_pair_includes _ _ Es), T1, T2.
  cbn [orb].
  replace (is_empty ds) with false by (destruct ds; [congruence | reflexivity]).
  replace (is_empty ds') with false
    by (destruct ds'; [congruence | reflexivity]).
  cbn [orb].
  assert (E1 : parseNumericValue (JStr ds)
               = Some (Fin (inject_Z (digits_value ds)))).
  { apply parseNumericValue_string. rewrite T1. split; [|discriminate].
    apply parseFloat_digits; assumption. }
  assert (E2 : parseNumericValue (JStr ds')
               = Some (Fin (inject_Z (digits_value ds')))).
  { apply parseNumericValue_string. rewrite T2. split; [|discriminate].
    apply parseFloat_digits; assumption. }
  rewrite E1, E2.
  set (s := inject_Z (digits_value ds)). set (d := inject_Z (digits_value ds')).
  pose proof (pair_result_spec (Some (Fin s)) (Some (Fin d))
                (JStr (ds ++ slash :: ds')) (Fin s) (Fin d)) as K.
  split.
  - split.
    + intros H.
      destruct (pair_result_values _ _ _ H) as (sys & dia & Hs & Hd).
      pose proof (pair_result_spec (Some (Fin s)) (Some (Fin d))
                    (JStr (ds ++ slash :: ds')) sys dia) as K'.
      destruct (proj1 K' (conj H (conj Hs Hd)))
        as (A1 & A2 & (q1 & B1 & R1) & (q2 & B2 & R2)).
      injection A1 as <-. injection A2 as <-.
      injection B1 as <-. injection B2 as <-. auto.
    + intros (R1 & R2). apply K. repeat split; auto.
      * exists s. auto.
      * exists d. auto.
  - intros H.
    destruct (pair_result_values _ _ _ H) as (sys & dia & Hs & Hd).
    pose proof (pair_result_spec (Some (Fin s)) (Some (Fin d))
                  (JStr (ds ++ slash :: ds')) sys dia) as K'.
    destruct (proj1 K' (conj H (conj Hs Hd))) as (A1 & A2 & _).
    injection A1 as <-. injection A2 as <-. auto.
Qed.

Lemma X16_blood_pressure_of_digits_witness :
  str "120" <> [] /\ str "80" <> []
  /\ forallb is_digit (str "120") = true
  /\ forallb is_digit (str "80") = true
  /\ systolic (processBloodPressure (JStr (str "120" ++ slash :: str "80")))
     = Some (Fin (inject_Z (digits_value (str "120"))))
  /\ diastolic (processBloodPressure (JStr (str "120" ++ slash :: str "80")))
     = Some (Fin (inject_Z (digits_value (str "80")))).
Proof.
  assert (H1 : str "120" <> []) by discriminate.
  assert (H2 : str "80" <> []) by discriminate.
  assert (H3 : forallb is_digit (str "120") = true) by reflexivity.
  assert (H4 : forallb is_digit (str "80") = true) by reflexivity.
  refine (conj H1 (conj H2 (conj H3 (conj H4 _)))).
  refine (proj2 (@X16_blood_pressure_of_digits _ _ H1 H2 H3 H4) _). reflexivity.
Defined.

(** ** White space, numbers and identifiers *)

Lemma pair_result_fields (a b : option number) (x y : any) :
  bp_valid (pair_result a b x) = bp_valid (pair_result a b y)
  /\ systolic (pair_result a b x) = systolic (pair_result a b y)
  /\ diastolic (pair_result a b x) = diastolic (pair_result a b y).
Proof.
  unfold pair_result, checked_pair.
  destruct a as [s|], b as [d|]; try (repeat split; reflexivity).
  destruct (isValidBloodPressureValue s true
            && isValidBloodPressureValue d false); repeat split; reflexivity.
Qed.

(** X17: white space around a string field changes nothing but
    [original]: the age, the blood pressure and the temperature of a
    string and of its trimmed form have the same validity and values. *)
Theorem X17_outer_white_space_ignored (s : jsstring) :
  (valid (processAge (JStr s)) = valid (processAge (JStr (trim s)))
   /\ value (processAge (JStr s)) = value (processAge (JStr (trim s))))
  /\ (bp_valid (processBloodPressure (JStr s))
      = bp_valid (processBloodPressure (JStr (trim s)))
      /\ systolic (processBloodPressure (JStr s))
         = systolic (processBloodPressure (JStr (trim s)))
      /\ diastolic (processBloodPressure (JStr s))
         = diastolic (processBloodPressure (JStr (trim s))))
  /\ (valid (processTemperature (JStr s))
      = valid (processTemperature (JStr (trim s)))
      /\ value (processTemperature (JStr s))
         = value (processTemperature (JStr (trim s)))).
Proof.
  split; [|split].
  - rewrite !processAge_string, trim_idem. cbv zeta.
    repeat match goal with
           | |- context [if ?b then _ else _] => destruct b
           end; split; reflexivity.
  - rewrite !processBloodPressure_string, trim_idem. cbv zeta.
    repeat match goal with
    | |- context [if ?b then _ else _] => destruct b
    | |- context [match ?l with [] => _ | _ :: _ => _ end] => destruct l
    end; try (repeat split; reflexivity).
    apply pair_result_fields.
  - rewrite !processTemperature_string, trim_idem. cbv zeta.
    repeat match goal with
           | |- context [if ?b then _ else _] => destruct b
           | |- context [match ?o with Some _ => _ | None => _ end] =>
               destruct o
           end; split; reflexivity.
Qed.

(** X18: [parseNumericValue] never returns NaN: a number other than NaN
    is returned as it is, NaN and a string that is blank or starts with
    no number give null, and so does any value that is neither a number
    nor a string; white space around a string is ignored. *)
Theorem X18_parseNumericValue (v : any) :
  (forall n, parseNumericValue v = Some n -> n <> NaN)
  /\ (forall n, v = JNum n ->
        parseNumericValue v = if Num.isNaN n then None else Some n)
  /\ (forall s, v = JStr s ->
        parseNumericValue v
        = if Num.isNaN (parseFloat (trim s)) then None
          else Some (parseFloat (trim s)))
  /\ (forall s, v = JStr s ->
        parseNumericValue (JStr (trim s)) = parseNumericValue v)
  /\ ((forall n, v <> JNum n) -> (forall s, v <> JStr s) ->
      parseNumericValue v = None).
Proof.
  split; [|split; [|split; [|split]]].
  - intros n H. apply parseNumericValue_coercible in H.
    destruct H as [[_ H] | (s & _ & _ & H)]; exact H.
  - intros n ->. reflexivity.
  - intros s ->. unfold parseNumericValue.
    destruct (trim s) as [|c t] eqn:E; reflexivity.
  - intros s ->. apply parseNumericValue_trim.
  - intros Hn Hs. destruct v as [| | b | n | s | props]; try reflexivity.
    + exfalso. exact (Hn n eq_refl).
    + exfalso. exact (Hs s eq_refl).
Qed.

Lemma X18_parseNumericValue_witness :
  parseNumericValue (JStr (str " 12.5kg ")) = Some (Fin 12.5)
  /\ Fin 12.5 <> NaN.
Proof.
  assert (H : parseNumericValue (JStr (str " 12.5kg ")) = Some (Fin 12.5))
    by reflexivity.
  refine (conj H _).
  exact (proj1 (X18_parseNumericValue (JStr (str " 12.5kg "))) _ H).
Defined.

(** X19: whatever [toString] does on numbers, [validatePatientId]
    returns a string id trimmed, rejects the ids that are blank or are
    neither strings nor numbers, and returns its own result unchanged;
    [processPatients] accepts blank ids that it rejects. *)
Theorem X19_validatePatientId (numberToString : number -> jsstring) :
  (forall s r, validatePatientId numberToString (JStr s) = Some r ->
     r = trim s /\ r <> []
     /\ validatePatientId numberToString (JStr r) = Some r)
  /\ (forall s, trim s = [] ->
        validatePatientId numberToString (JStr s) = None)
  /\ (forall v, (forall n, v <> JNum n) -> (forall s, v <> JStr s) ->
        validatePatientId numberToString v = None)
  /\ (forall n, validatePatientId numberToString (JNum n)
                = Some (numberToString n))
  /\ (exists v, has_patient_id (record v JNull JNull JNull) = true
                /\ validatePatientId numberToString v = None).
Proof.
  split; [|split; [|split; [|split]]].
  - intros s r. unfold validatePatientId.
    destruct (is_empty (trim s)) eqn:E; cbn [negb]; [discriminate|].
    intros H. injection H as <-. apply is_empty_false in E.
    split; [reflexivity|]. split; [exact E|].
    rewrite trim_idem.
    replace (is_empty (trim s)) with false
      by (symmetry; apply is_empty_false; exact E).
    reflexivity.
  - intros s H. unfold validatePatientId. rewrite H. reflexivity.
  - intros v Hn Hs. destruct v as [| | b | n | s | props]; try reflexivity.
    + exfalso. exact (Hn n eq_refl).
    + exfalso. exact (Hs s eq_refl).
  - reflexivity.
  - exists (JStr (str "  ")). split; reflexivity.
Qed.

Lemma X19_validatePatientId_witness :
  validatePatientId (fun _ => []) (JStr (str " A ")) = Some (str "A")
  /\ validatePatientId (fun _ => []) (JStr (str "A")) = Some (str "A").
Proof.
  assert (H : validatePatientId (fun _ => []) (JStr (str " A "))
              = Some (str "A")) by reflexivity.
  refine (conj H _).
  exact (proj2 (proj2 (proj1 (X19_validatePatientId (fun _ => [])) _ _ H))).
Defined.

(** ** Transport *)

Section RetryFacts.
Import HealthcareAPIClient.
Variable T : Type.
Variable requestFn : nat -> AxiosError + T.

Lemma retry_loop_spec (remaining : nat) :
  forall attempt,
    let res := retry_loop requestFn remaining attempt in
    (attempt < snd res <= attempt + S remaining)%nat
    /\ fst res = requestFn (snd res - 1)%nat
    /\ (forall k, (attempt <= k < snd res - 1)%nat ->
          exists e, requestFn k = inl e /\ isRetryableError e = true)
    /\ ((exists d, fst res = inr d)
        \/ (exists e, fst res = inl e /\ isRetryableError e = false)
        \/ snd res = (attempt + S remaining)%nat).
Proof.
  induction remaining as [|r IH]; intros attempt; cbn [retry_loop].
  - destruct (requestFn attempt) as [e|d] eqn:E; cbv zeta; cbn [fst snd];
      replace (S attempt - 1)%nat with attempt by lia;
      (split; [lia|]); (split; [symmetry; exact E|]);
      (split; [intros k Hk; lia|]).
    + right. right. lia.
    + left. eauto.
  - destruct (requestFn attempt) as [e|d] eqn:E.
    + assert (Hrec : isRetryableError e = true ->
                let res := retry_loop requestFn r (S attempt) in
                (attempt < snd res <= attempt + S (S r))%nat
                /\ fst res = requestFn (snd res - 1)%nat
                /\ (forall k, (attempt <= k < snd res - 1)%nat ->
                      exists e, requestFn k = inl e
                                /\ isRetryableError e = true)
                /\ ((exists d, fst res = inr d)
                    \/ (exists e, fst res = inl e
                                  /\ isRetryableError e = false)
                    \/ snd res = (attempt + S (S r))%nat)).
      { intros Hr. destruct (IH (S attempt)) as (H1 & H2 & H3 & H4).
        cbv zeta. split; [lia|]. split; [exact H2|]. split.
        - intros k Hk. destruct (Nat.eq_dec k attempt) as [->|Hne].
          + exists e. auto.
          + apply H3. lia.
        - destruct H4 as [H4 | [H4 | H4]]; auto. right. right. lia. }
      destruct (response_status e) as [st|] eqn:Est.
      * destruct (isRetryableError e) eqn:Er; cbn [negb].
        -- apply Hrec. reflexivity.
        -- cbv zeta. cbn [fst snd].
           replace (S attempt - 1)%nat with attempt by lia.
           split; [lia|]. split; [symmetry; exact E|].
           split; [intros k Hk; lia|]. right. left. eauto.
      * apply Hrec. unfold isRetryableError. rewrite Est. reflexivity.
    + cbv zeta. cbn [fst snd].
      replace (S attempt - 1)%nat with attempt by lia.
      split; [lia|]. split; [symmetry; exact E|].
      split; [intros k Hk; lia|]. left. eauto.
Qed.

Lemma retry_loop_ext (g : nat -> AxiosError + T) (remaining : nat) :
  forall attempt,
    (forall k, (attempt <= k <= attempt + remaining)%nat ->
               requestFn k = g k) ->
    retry_loop requestFn remaining attempt = retry_loop g remaining attempt.
Proof.
  induction remaining as [|r IH]; intros attempt H; cbn [retry_loop].
  - rewrite <- (H attempt) by lia. reflexivity.
  - rewrite <- (H attempt) by lia.
    rewrite (IH (S attempt)) by (intros k Hk; apply H; lia). reflexivity.
Qed.

End RetryFacts.

Import HealthcareAPIClient.

Lemma isRetryableError_false (e : AxiosError) :
  isRetryableError e = false <->
  exists status, response_status e = Some status
                 /\ (status < 500)%nat /\ status <> 429%nat.
Proof.
  unfold isRetryableError. destruct (response_status e) as [st|].
  - rewrite orb_false_iff, Nat.leb_gt, Nat.eqb_neq. split.
    + intros [H1 H2]. exists st. auto.
    + intros (st' & E & H1 & H2). injection E as <-. auto.
  - split; [discriminate | intros (st & E & _); discriminate].
Qed.

(** X20: [executeWithRetry] calls the request between 1 and 4 times and
    ends with the outcome of its last call; every earlier call failed
    with a retryable error; it stops on the first success, on the first
    error that is not retryable (a response with a status under 500
    other than 429), or after the fourth call; the outcomes of later
    calls play no part. *)
Theorem X20_executeWithRetry (T : Type) (requestFn : nat -> AxiosError + T) :
  let res := executeWithRetry requestFn in
  (1 <= snd res <= 4)%nat
  /\ fst res = requestFn (snd res - 1)%nat
  /\ (forall k, (k < snd res - 1)%nat ->
        exists e, requestFn k = inl e /\ isRetryableError e = true)
  /\ ((exists d, fst res = inr d)
      \/ (exists e status, fst res = inl e
                           /\ response_status e = Some status
                           /\ (status < 500)%nat /\ status <> 429%nat)
      \/ snd res = 4%nat)
  /\ (forall g, (forall k, (k <= 3)%nat -> requestFn k = g k) ->
                executeWithRetry g = res).
Proof.
  cbv zeta. unfold executeWithRetry, maxRetries.
  destruct (retry_loop_spec requestFn 3 0) as (H1 & H2 & H3 & H4).
  split; [lia|]. split; [exact H2|]. split.
  - intros k Hk. apply H3. lia.
  - split.
    + destruct H4 as [H4 | [(e & E & Hr) | H4]]; auto.
      right. left. apply isRetryableError_false in Hr.
      destruct Hr as (st & Hst). exists e, st. auto.
    + intros g Hg. symmetry. apply retry_loop_ext.
      intros k Hk. apply Hg. lia.
Qed.

Lemma X20_executeWithRetry_witness :
  let requestFn (n : nat) : AxiosError + nat :=
    match n with
    | 0%nat => inl (mkError (Some 502%nat))
    | 1%nat => inl (mkError (Some 429%nat))
    | 2%nat => inl (mkError None)
    | _ => inl (mkError (Some 404%nat))
    end in
  executeWithRetry requestFn = (inl (mkError (Some 404%nat)), 4%nat)
  /\ executeWithRetry (fun n => if (n <=? 3)%nat then requestFn n else inr n)
     = executeWithRetry requestFn.
Proof.
  cbv zeta. split; [reflexivity|].
  refine (proj2 (proj2 (proj2 (proj2 (X20_executeWithRetry _)))) _ _).
  intros k Hk. apply Nat.leb_le in Hk. rewrite Hk. reflexivity.
Defined.

Section FetchFacts.
Variable get_patients : nat -> nat -> AxiosError + PaginatedResponse.

Lemma fetch_loop_fuel (fuel : nat) :
  forall page allPatients,
    (20 <= fuel + page)%nat ->
    fetch_loop get_patients (S (S fuel)) page allPatients
    = fetch_loop get_patients (S fuel) page allPatients.
Proof.
  induction fuel as [|f IH]; intros page allPatients H.
  - cbn [fetch_loop].
    destruct (fetchPatientsPage get_patients page) as [e|r]; [reflexivity|].
    cbv zeta. destruct (is_empty _); [reflexivity|].
    destruct (Nat.ltb_spec 20 (S page)) as [L|L]; [reflexivity | lia].
  - remember (S f) as f1 eqn:Ef. cbn [fetch_loop].
    destruct (fetchPatientsPage get_patients page) as [e|r]; [reflexivity|].
    cbv zeta. destruct (is_empty _); [reflexivity|].
    destruct (Nat.ltb_spec 20 (S page)) as [L|L]; [reflexivity|].
    destruct (match pagination_hasNext r with Some b => b | None => false end);
      [|reflexivity].
    subst f1. apply IH. lia.
Qed.

Lemma fetch_loop_shape (fuel : nat) :
  forall page allPatients l,
    (page <= 20)%nat ->
    fetch_loop get_patients fuel page allPatients = inr l ->
    exists k, l = allPatients
                  ++ flat_map (page_patients get_patients) (seq page k)
              /\ (page + k <= 21)%nat
              /\ (forall p, (page <= p < page + k)%nat ->
                            page_filled get_patients p)
              /\ (forall p, (page <= p)%nat -> (S p < page + k)%nat ->
                            page_has_next get_patients p).
Proof.
  induction fuel as [|f IH]; intros page allPatients l Hp; cbn [fetch_loop].
  - intros E. injection E as <-. exists 0%nat. cbn [seq flat_map].
    rewrite app_nil_r. repeat split; try lia; intros; lia.
  - destruct (fetchPatientsPage get_patients page) as [e|r] eqn:Er;
      [discriminate|].
    cbv zeta.
    set (patients := match data r with Some d => d | None => [] end).
    assert (Epp : page_patients get_patients page = patients)
      by (unfold page_patients; rewrite Er; reflexivity).
    destruct (is_empty patients) eqn:Ee.
    + intros E. injection E as <-. exists 0%nat. cbn [seq flat_map].
      rewrite app_nil_r. repeat split; try lia; intros; lia.
    + apply is_empty_false in Ee.
      assert (Hfill : page_filled get_patients page)
        by (split; [eauto | rewrite Epp; exact Ee]).
      assert (One : exists k,
                 allPatients ++ patients
                 = allPatients
                   ++ flat_map (page_patients get_patients) (seq page k)
                 /\ (page + k <= 21)%nat
                 /\ (forall p, (page <= p < page + k)%nat ->
                               page_filled get_patients p)
                 /\ (forall p, (page <= p)%nat -> (S p < page + k)%nat ->
                               page_has_next get_patients p)).
      { exists 1%nat. cbn [seq flat_map]. rewrite Epp, app_nil_r.
        split; [reflexivity|]. split; [lia|]. split.
        - intros p Hlt. replace p with page by lia. exact Hfill.
        - intros p H1 H2. lia. }
      destruct (Nat.ltb_spec 20 (S page)) as [L|L].
      * intros E. injection E as <-. exact One.
      * destruct (pagination_hasNext r) as [[|]|] eqn:Eh;
          try (intros E; injection E as <-; exact One).
        intros E. apply IH in E; [|lia].
        destruct E as (k & -> & Hk & Hf & Hn).
        exists (S k). cbn [seq flat_map]. rewrite Epp, <- app_assoc.
        split; [reflexivity|]. split; [lia|]. split.
        -- intros p Hlt. destruct (Nat.eq_dec p page) as [->|Hne];
             [exact Hfill | apply Hf; lia].
        -- intros p H1 H2. destruct (Nat.eq_dec p page) as [->|Hne].
           ++ exists r. auto.
           ++ apply Hn; lia.
Qed.

Lemma fetch_loop_error (fuel : nat) :
  forall page allPatients e,
    (page <= 20)%nat ->
    fetch_loop get_patients fuel page allPatients = inl e ->
    exists p, (page <= p <= 20)%nat
              /\ fetchPatientsPage get_patients p = inl e
              /\ (forall q, (page <= q < p)%nat ->
                     page_filled get_patients q
                     /\ page_has_next get_patients q).
Proof.
  induction fuel as [|f IH]; intros page allPatients e Hp; cbn [fetch_loop];
    [discriminate|].
  destruct (fetchPatientsPage get_patients page) as [e'|r] eqn:Er.
  - intros E. injection E as <-. exists page.
    split; [lia|]. split; [exact Er|]. intros q Hq. lia.
  - cbv zeta.
    set (patients := match data r with Some d => d | None => [] end).
    assert (Epp : page_patients get_patients page = patients)
      by (unfold page_patients; rewrite Er; reflexivity).
    destruct (is_empty patients) eqn:Ee; [discriminate|].
    apply is_empty_false in Ee.
    destruct (Nat.ltb_spec 20 (S page)) as [L|L]; [discriminate|].
    destruct (pagination_hasNext r) as [[|]|] eqn:Eh; try discriminate.
    intros E. apply IH in E; [|lia]. destruct E as (p & Hle & Ep & Hq).
    exists p. split; [lia|]. split; [exact Ep|].
    intros q Hlt. destruct (Nat.eq_dec q page) as [->|Hne].
    + split; [split; [eauto | rewrite Epp; exact Ee] | exists r; auto].
    + apply Hq. lia.
Qed.

Lemma fetch_loop_complete (n : nat) :
  forall fuel page allPatients,
    (1 <= n <= fuel)%nat -> (page + n <= 21)%nat ->
    (forall p, (page <= p < page + n)%nat -> page_filled get_patients p) ->
    (forall p, (page <= p)%nat -> (S p < page + n)%nat ->
               page_has_next get_patients p) ->
    ((page + n = 21)%nat
     \/ ~ page_has_next get_patients (page + n - 1)) ->
    fetch_loop get_patients fuel page allPatients
    = inr (allPatients
           ++ flat_map (page_patients get_patients) (seq page n)).
Proof.
  induction n as [|n IH]; intros fuel page allPatients Hn Hb Hf Hx Hstop;
    [lia|].
  destruct fuel as [|f]; [lia|]. cbn [fetch_loop seq flat_map].
  destruct (Hf page ltac:(lia)) as ((r & Er) & Hne).
  assert (Epp : page_patients get_patients page
                = match data r with Some d => d | None => [] end)
    by (unfold page_patients; rewrite Er; reflexivity).
  rewrite Er. cbv zeta. rewrite <- Epp.
  replace (is_empty (page_patients get_patients page)) with false
    by (symmetry; apply is_empty_false; exact Hne).
  destruct n as [|n'].
  - cbn [seq flat_map]. rewrite app_nil_r.
    destruct (Nat.ltb_spec 20 (S page)) as [L|L]; [reflexivity|].
    destruct Hstop as [Hs | Hs]; [lia|].
    replace (page + 1 - 1)%nat with page in Hs by lia.
    destruct (pagination_hasNext r) as [[|]|] eqn:Eh; try reflexivity.
    exfalso. apply Hs. exists r. auto.
  - destruct (Nat.ltb_spec 20 (S page)) as [L|L]; [lia|].
    destruct (Hx page ltac:(lia) ltac:(lia)) as (r' & Er' & Eh).
    rewrite Er in Er'. injection Er' as <-. rewrite Eh.
    rewrite (IH f (S page)); try lia.
    + rewrite <- app_assoc. reflexivity.
    + intros p Hp. apply Hf. lia.
    + intros p H1 H2. apply Hx; lia.
    + destruct Hstop as [Hs | Hs]; [left; lia|]. right.
      replace (S page + S n' - 1)%nat with (page + S (S n') - 1)%nat by lia.
      exact Hs.
Qed.

Lemma fetchPatientsPage_ext
    (g : nat -> nat -> AxiosError + PaginatedResponse) (page : nat) :
  (forall k, (k <= 3)%nat -> get_patients page k = g page k) ->
  fetchPatientsPage get_patients page = fetchPatientsPage g page.
Proof.
  intros H. unfold fetchPatientsPage, executeWithRetry, maxRetries.
  f_equal. apply retry_loop_ext. intros k Hk. apply H. lia.
Qed.

Lemma fetch_loop_ext
    (g : nat -> nat -> AxiosError + PaginatedResponse) (fuel : nat) :
  forall page allPatients,
    (page <= 20)%nat ->
    (forall p k, (page <= p <= 20)%nat -> (k <= 3)%nat ->
                 get_patients p k = g p k) ->
    fetch_loop get_patients fuel page allPatients
    = fetch_loop g fuel page allPatients.
Proof.
  induction fuel as [|f IH]; intros page allPatients Hp H; [reflexivity|].
  cbn [fetch_loop].
  rewrite <- (@fetchPatientsPage_ext g page)
    by (intros k Hk; apply H; lia).
  destruct (fetchPatientsPage get_patients page) as [e|r]; [reflexivity|].
  cbv zeta. destruct (is_empty _); [reflexivity|].
  destruct (Nat.ltb_spec 20 (S page)) as [L|L]; [reflexivity|].
  destruct (match pagination_hasNext r with Some b => b | None => false end);
    [|reflexivity].
  apply IH; [lia|]. intros p k Hpk Hk. apply H; lia.
Qed.

End FetchFacts.

(** X21: [fetchAllPatients] asks for no page beyond 20 and tries no page
    more than 4 times: two transports that agree on the first four
    requests for the pages 1 to 20 give the same result; the loop needs
    no more than 20 iterations. *)
Theorem X21_fetchAllPatients_bounds
    (get_patients g : nat -> nat -> AxiosError + PaginatedResponse) :
  ((forall p k, (1 <= p <= 20)%nat -> (k <= 3)%nat ->
                get_patients p k = g p k) ->
   fetchAllPatients get_patients = fetchAllPatients g)
  /\ (forall extra, fetch_loop get_patients (20 + extra) 1 []
                    = fetchAllPatients get_patients).
Proof.
  split.
  - intros H. unfold fetchAllPatients. apply fetch_loop_ext; [lia | exact H].
  - unfold fetchAllPatients. induction extra as [|x IH]; [reflexivity|].
    rewrite <- IH. replace (20 + S x)%nat with (S (S (19 + x))) by lia.
    replace (20 + x)%nat with (S (19 + x)) by lia.
    apply fetch_loop_fuel. lia.
Qed.

Lemma X21_fetchAllPatients_bounds_witness :
  let page (hasNext : bool) : AxiosError + PaginatedResponse :=
    inr (mkPage (Some [JNull]) (Some hasNext)) in
  let get_patients (p k : nat) := page true in
  let g (p k : nat) :=
    if ((p <=? 20) && (k <=? 3))%nat then page true
    else inl (mkError (Some 500%nat)) in
  (forall p k, (1 <= p <= 20)%nat -> (k <= 3)%nat -> get_patients p k = g p k)
  /\ fetchAllPatients get_patients = fetchAllPatients g.
Proof.
  cbv zeta.
  match goal with |- ?A /\ _ => assert (H : A) end.
  { intros p k Hp Hk.
    replace (p <=? 20)%nat with true by (symmetry; apply Nat.leb_le; lia).
    replace (k <=? 3)%nat with true by (symmetry; apply Nat.leb_le; lia).
    reflexivity. }
  refine (conj H _).
  exact (proj1 (X21_fetchAllPatients_bounds _ _) H).
Defined.

(** X22: when [fetchAllPatients] succeeds, its result is the
    concatenation, in order, of the patients of the pages 1 to k for
    some k up to 20; each of these pages was fetched with at least one
    patient and each but the last announced a next page.  When it
    fails, the error is the one of a page up to 20 whose predecessors
    were all fetched, and nothing fetched before is returned. *)
Theorem X22_fetchAllPatients_result
    (get_patients : nat -> nat -> AxiosError + PaginatedResponse) :
  (forall l, fetchAllPatients get_patients = inr l ->
     exists k, (k <= 20)%nat
               /\ l = flat_map (page_patients get_patients) (seq 1 k)
               /\ (forall p, (1 <= p <= k)%nat ->
                             page_filled get_patients p)
               /\ (forall p, (1 <= p < k)%nat ->
                             page_has_next get_patients p))
  /\ (forall e, fetchAllPatients get_patients = inl e ->
        exists p, (1 <= p <= 20)%nat
                  /\ fetchPatientsPage get_patients p = inl e
                  /\ (forall q, (1 <= q < p)%nat ->
                        page_filled get_patients q
                        /\ page_has_next get_patients q)).
Proof.
  unfold fetchAllPatients. split.
  - intros l E. apply fetch_loop_shape in E; [|lia].
    destruct E as (k & -> & Hk & Hf & Hn).
    exists k. split; [lia|]. split; [reflexivity|]. split.
    + intros p Hp. apply Hf. lia.
    + intros p Hp. apply Hn; lia.
  - intros e E. apply fetch_loop_error in E; [|lia]. exact E.
Qed.

Lemma X22_fetchAllPatients_result_witness :
  let get_patients (p k : nat) : AxiosError + PaginatedResponse :=
    match p with
    | 1%nat => inr (mkPage (Some [JNull; JNull]) (Some true))
    | 2%nat => if (k <? 3)%nat then inl (mkError (Some 503%nat))
               else inr (mkPage (Some [JBool true]) None)
    | _ => inl (mkError None)
    end in
  fetchAllPatients get_patients = inr [JNull; JNull; JBool true]
  /\ exists k, (k <= 20)%nat
               /\ [JNull; JNull; JBool true]
                  = flat_map (page_patients get_patients) (seq 1 k).
Proof.
  cbv zeta.
  match goal with |- ?A /\ _ => assert (H : A) by reflexivity end.
  refine (conj H _).
  destruct (proj1 (X22_fetchAllPatients_result _) _ H) as (k & Hk & E & _).
  exists k. split; [exact Hk | exact E].
Defined.

(** X23: when the pages 1 to n (n between 1 and 20) are fetched with
    patients, each but the last announces a next page, and either n is
    20 or page n announces none, [fetchAllPatients] returns exactly the
    patients of these pages; with n = 20 whatever page 20 announces is
    ignored, so later pages are left out without an error. *)
Theorem X23_fetchAllPatients_complete
    (get_patients : nat -> nat -> AxiosError + PaginatedResponse) (n : nat) :
  (1 <= n <= 20)%nat ->
  (forall p, (1 <= p <= n)%nat -> page_filled get_patients p) ->
  (forall p, (1 <= p < n)%nat -> page_has_next get_patients p) ->
  (n = 20%nat \/ ~ page_has_next get_patients n) ->
  fetchAllPatients get_patients
  = inr (flat_map (page_patients get_patients) (seq 1 n)).
Proof.
  intros Hn Hf Hx Hstop. unfold fetchAllPatients.
  rewrite (@fetch_loop_complete get_patients n 20 1 []); try lia.
  - reflexivity.
  - intros p Hp. apply Hf. lia.
  - intros p H1 H2. apply Hx. lia.
  - destruct Hstop as [-> | Hs]; [left; reflexivity|]. right.
    replace (1 + n - 1)%nat with n by lia. exact Hs.
Qed.

Lemma X23_fetchAllPatients_complete_witness :
  let get_patients (p k : nat) : AxiosError + PaginatedResponse :=
    inr (mkPage (Some [JNum (Fin (inject_Z (Z.of_nat p)))]) (Some true)) in
  List.length
    (match fetchAllPatients get_patients with inr l => l | inl _ => [] end)
  = 20%nat.
Proof.
  cbv zeta.
  rewrite (@X23_fetchAllPatients_complete _ 20).
  - reflexivity.
  - lia.
  - intros p Hp. split; [eexists; reflexivity | discriminate].
  - intros p Hp. eexists. split; reflexivity.
  - left. reflexivity.
Defined.

(** ** The pipeline on raw records *)

Lemma filter_map_comm (A B : Type) (f : B -> bool) (g : A -> B) (l : list A) :
  filter f (List.map g l) = List.map g (filter (fun x => f (g x)) l).
Proof.
  induction l as [|x l IH]; simpl; [reflexivity|].
  destruct (f (g x)); simpl; congruence.
Qed.

Lemma filter_andb (A : Type) (f g : A -> bool) (l : list A) :
  filter g (filter f l) = filter (fun x => f x && g x) l.
Proof.
  induction l as [|x l IH]; simpl; [reflexivity|].
  destruct (f x); simpl; [destruct (g x); simpl; congruence | exact IH].
Qed.

Lemma alerts_of_raw (f : ProcessedPatient -> bool) (l : list any) :
  List.map id (filter f (processPatients l))
  = List.map raw_id
      (filter (fun r => has_patient_id r && f (processPatient r)) l).
Proof.
  rewrite processPatients_has_id, filter_map_comm, filter_andb, map_map.
  reflexivity.
Qed.

(** X24: the pipeline passes raw ids through: each alert list is the
    list of the raw [patient_id] values, in input order, of the records
    that have a truthy id and whose processed form passes the test of
    the list; the total of the statistics counts the records with a
    truthy id. *)
Theorem X24_pipeline_on_raw_records (l : list any) :
  let (alerts, stats) := pipeline l in
  high_risk_patients alerts
  = List.map raw_id
      (filter (fun r => has_patient_id r && isHighRisk (processPatient r)) l)
  /\ fever_patients alerts
     = List.map raw_id
         (filter (fun r => has_patient_id r && hasFever (processPatient r)) l)
  /\ data_quality_issues alerts
     = List.map raw_id
         (filter (fun r => has_patient_id r
                           && hasDataQualityIssues (processPatient r)) l)
  /\ total stats = List.length (filter has_patient_id l).
Proof.
  unfold pipeline. rewrite generateAlerts_filter.
  cbn [high_risk_patients fever_patients data_quality_issues].
  rewrite !alerts_of_raw.
  destruct (getProcessingStats_counts (processPatients l)) as (Ht & _).
  rewrite Ht, processPatients_has_id, length_map. repeat split.
Qed.

Lemma NoDup_map_filter (A B : Type) (g : A -> B) (f : A -> bool) (l : list A) :
  NoDup (List.map g l) -> NoDup (List.map g (filter f l)).
Proof.
  induction l as [|x l IH]; simpl; intros H; [constructor|].
  inversion H as [|y ys Hn Hd]; subst.
  destruct (f x); simpl; [|auto].
  constructor; [|auto]. intros Hi. apply Hn.
  apply in_map_iff in Hi. destruct Hi as (z & Ez & Hz).
  apply filter_In in Hz. apply in_map_iff. exists z. tauto.
Qed.

(** X25: when the truthy ids of a batch are pairwise distinct, no alert
    list holds an id twice. *)
Theorem X25_alerts_without_duplicates (l : list any) :
  NoDup (List.map raw_id (filter has_patient_id l)) ->
  let alerts := fst (pipeline l) in
  NoDup (high_risk_patients alerts)
  /\ NoDup (fever_patients alerts)
  /\ NoDup (data_quality_issues alerts).
Proof.
  intros H. cbv zeta. unfold pipeline. cbn [fst].
  rewrite generateAlerts_filter.
  cbn [high_risk_patients fever_patients data_quality_issues].
  assert (K : NoDup (List.map id (processPatients l))).
  { rewrite processPatients_has_id, map_map. exact H. }
  repeat split; apply NoDup_map_filter; exact K.
Qed.

Lemma X25_alerts_without_duplicates_witness :
  NoDup (List.map raw_id (filter has_patient_id example_batch))
  /\ NoDup (high_risk_patients (fst (pipeline example_batch))).
Proof.
  assert (H : NoDup (List.map raw_id (filter has_patient_id example_batch))).
  { repeat constructor; simpl; intuition discriminate. }
  refine (conj H _).
  exact (proj1 (X25_alerts_without_duplicates example_batch H)).
Defined.
